(** * GOT House Predictor: the request handler of [src/app.py]

    A shallow embedding of the serving code of [src/app.py]: the input
    record [CharacterInput], the two process-wide globals, [load_artifacts]
    and the handler [predict], together with the three pandas calls the
    handler makes ([pd.DataFrame], [pd.get_dummies], [DataFrame.reindex])
    on the one-row frames the handler builds.  The pandas calls follow the
    library's code path for such frames (pandas 1.4 and later): dtype
    inference of a one-cell column, [_get_dummies_1d] with [dummy_na=True],
    and [Index.reindex] with its refusal of duplicate labels.

    The handler receives a [CharacterInput] that the framework has already
    validated, and its result is what it returns or raises; parsing the
    request and writing the response are the framework's and are not
    modelled.

    [src/pipelines/pipeline.py] only submits a preparation job to a cloud
    workspace; no property below concerns it. *)

From Stdlib Require Import String Ascii ZArith List Bool Lia.
From Stdlib Require Import DecimalString PrimFloat Permutation.
Import ListNotations.

Local Open Scope string_scope.
Local Open Scope Z_scope.

(* ====================================================================== *)
(** * Python values, exceptions and the handler monad *)
(* ====================================================================== *)

Module Py.

(** The Python values a field of the request can hold. *)
Inductive value : Type :=
| PNone
| PBool (b : bool)
| PInt (z : Z)
| PFloat (f : float)
| PStr (s : string).

(** An insertion-ordered [dict] with string keys. *)
Definition dict : Type := list (string * value).

(** The exceptions that occur in the handler.  [HTTPException] is the one
    the handler raises itself; [ValueError] is what [reindex] raises;
    [IndexError] is what [prediction[0]] raises on an empty result;
    [Raised msg] stands for any other exception [e] that derives from
    [Exception], with [str(e) = msg]; [BaseRaised msg] stands for an
    exception that derives from [BaseException] and not from [Exception]
    ([SystemExit], [KeyboardInterrupt], [GeneratorExit],
    [asyncio.CancelledError]), with [str(e) = msg]. *)
Inductive exn : Type :=
| HTTPException (status_code : Z) (detail : string)
| ValueError (msg : string)
| IndexError (msg : string)
| Raised (msg : string)
| BaseRaised (msg : string).

(** [isinstance(e, Exception)]: what an [except Exception] clause
    handles. *)
Definition is_exception (e : exn) : bool :=
  match e with
  | BaseRaised _ => false
  | _ => true
  end.

(** Decimal text of an integer, as [str(int)] prints it. *)
Definition str_int (z : Z) : string := NilZero.string_of_int (Z.to_int z).

(** [str(e)]. *)
Definition str_exn (e : exn) : string :=
  match e with
  | HTTPException c d => str_int c ++ ": " ++ d
  | ValueError m | IndexError m | Raised m | BaseRaised m => m
  end.

(** The library calls a run of the handler makes, in order. *)
Inductive call : Type :=
| CallDataFrame
| CallGetDummies
| CallReindex
| CallPredict.

(** A computation either raises or returns, and records the calls made. *)
Definition M (A : Type) : Type := (exn + A) * list call.

Definition ret {A} (a : A) : M A := (inr a, []).

Definition raise {A} (e : exn) : M A := (inl e, []).

Definition bind {A B} (m : M A) (k : A -> M B) : M B :=
  match fst m with
  | inl e => (inl e, snd m)
  | inr a => (fst (k a), (snd m ++ snd (k a))%list)
  end.

(** [try: body / except Exception as e: handler e].  An exception that
    does not derive from [Exception] is not handled: it leaves the block
    as the body raised it. *)
Definition try_except {A} (body : M A) (handler : exn -> M A) : M A :=
  match fst body with
  | inl e =>
      if is_exception e
      then (fst (handler e), (snd body ++ snd (handler e))%list)
      else body
  | inr _ => body
  end.

(** A library call: it is recorded, then raises or returns. *)
Definition invoke {A} (c : call) (r : exn + A) : M A := (r, [c]).

(** [xs[0]] on a numpy array. *)
Definition getitem0 {A} (xs : list A) : M A :=
  match xs with
  | [] => raise (IndexError "index 0 is out of bounds for axis 0 with size 0")
  | x :: _ => ret x
  end.

End Py.

Import Py.

Notation "x <- m ;; k" := (bind m (fun x => k))
  (at level 61, m at next level, right associativity).

(* ====================================================================== *)
(** * The pandas calls of the handler, on one-row frames *)
(* ====================================================================== *)

Module Pandas.

(** A frame with a single row: its column labels in order, each with the
    row's cell.  Labels may repeat. *)
Definition DataFrame : Type := list (string * value).

Definition columns (df : DataFrame) : list string := map fst df.

(** [pd.DataFrame([data])]: one column per key, in the dict's order. *)
Definition DataFrame_of_record (data : dict) : DataFrame := data.

(** What a column holding the single cell [v] is to [get_dummies]: a column
    of a numeric dtype (bool, int64, uint64, float64), or an object column,
    which holds either a null or one level, printed as [f"{level}"].  An
    integer that fits no 64-bit dtype is kept as a Python object. *)
Inductive cell_kind : Type :=
| Numeric
| ObjectNull
| ObjectLevel (label : string).

Definition fits_int64 (z : Z) : bool := (- 2 ^ 63 <=? z) && (z <? 2 ^ 63).
Definition fits_uint64 (z : Z) : bool := (0 <=? z) && (z <? 2 ^ 64).

Definition classify (v : value) : cell_kind :=
  match v with
  | PNone => ObjectNull
  | PStr s => ObjectLevel s
  | PInt z => if fits_int64 z || fits_uint64 z then Numeric
              else ObjectLevel (str_int z)
  | PBool _ | PFloat _ => Numeric
  end.

Definition is_numeric (c : string * value) : bool :=
  match classify (snd c) with Numeric => true | _ => false end.

(** [_get_dummies_1d(col, prefix, prefix_sep="_", dummy_na=True)] for a
    column with one cell: the levels are the non-null values, a [nan] level
    is appended, the column names are [f"{prefix}_{level}"], and the row is
    the row of the identity matrix picked by the cell's code.  Indicator
    cells are written as the integers 1 and 0 (uint8 1/0, or True/False,
    which Python compares equal to 1/0). *)
Definition get_dummies_1d (prefix : string) (level : option string)
  : DataFrame :=
  let levels := match level with Some l => [l] | None => [] end in
  let code := match level with Some _ => 0%nat | None => length levels end in
  let levels := (levels ++ ["nan"])%list in
  let dummy_cols := map (fun l => prefix ++ "_" ++ l) levels in
  combine dummy_cols
    (map (fun i => PInt (if Nat.eqb i code then 1 else 0))
       (seq 0 (length levels))).

(** The dummy columns of one column of the frame; a numeric column is not
    encoded and has none. *)
Definition dummies (c : string * value) : DataFrame :=
  match classify (snd c) with
  | Numeric => []
  | ObjectNull => get_dummies_1d (fst c) None
  | ObjectLevel l => get_dummies_1d (fst c) (Some l)
  end.

(** [pd.get_dummies(df, dummy_na=True)]: the columns that are not encoded,
    in their order, followed by the dummy columns of each encoded column. *)
Definition get_dummies (df : DataFrame) : DataFrame :=
  (filter is_numeric df ++ flat_map dummies df)%list.

Fixpoint list_eqb (xs ys : list string) : bool :=
  match xs, ys with
  | [], [] => true
  | x :: xs', y :: ys' => String.eqb x y && list_eqb xs' ys'
  | _, _ => false
  end.

Definition mem (x : string) (l : list string) : bool :=
  existsb (String.eqb x) l.

(** [Index.is_unique]. *)
Fixpoint is_unique (l : list string) : bool :=
  match l with
  | [] => true
  | x :: t => negb (mem x t) && is_unique t
  end.

(** The cell under the first column labelled [c]. *)
Fixpoint lookup (c : string) (df : DataFrame) : option value :=
  match df with
  | [] => None
  | (k, v) :: t => if String.eqb c k then Some v else lookup c t
  end.

Definition get (c : string) (df : DataFrame) (fill_value : value) : value :=
  match lookup c df with Some v => v | None => fill_value end.

(** The selection by label that [reindex] falls back on: duplicate labels
    in the frame are refused; otherwise each target label takes its cell
    from the frame, or the fill value. *)
Definition take_labels (df : DataFrame) (target : list string)
  (fill_value : value) : exn + DataFrame :=
  if negb (is_unique (columns df)) then
    inl (ValueError "cannot reindex on an axis with duplicate labels")
  else inr (map (fun c => (c, get c df fill_value)) target).

(** [df.reindex(columns=target, fill_value=fill_value)]: a frame whose
    columns already equal the target is returned as it is; any other frame
    is selected from by label. *)
Definition reindex (df : DataFrame) (target : list string)
  (fill_value : value) : exn + DataFrame :=
  if list_eqb (columns df) target then inr df
  else take_labels df target fill_value.

End Pandas.

Import Pandas.

(* ====================================================================== *)
(** * [src/app.py] *)
(* ====================================================================== *)

Module App.

(** [class CharacterInput(BaseModel)], fields in declaration order.  An
    [Optional[...]] field holds [None] when the request sends a null. *)
Record CharacterInput : Type := {
  region : string;
  primary_role : string;
  alignment : string;
  status : string;
  species : string;
  honour_1to5 : Z;
  ruthlessness_1to5 : Z;
  intelligence_1to5 : Z;
  combat_skill_1to5 : Z;
  diplomacy_1to5 : Z;
  leadership_1to5 : Z;
  trait_strategic : option bool;
  trait_impulsive : option bool;
  trait_charismatic : option bool;
  trait_vengeful : option bool;
  trait_loyal : bool;
  trait_scheming : bool;
  feature_set_version : option float
}.

Definition optional {A} (inj : A -> value) (o : option A) : value :=
  match o with Some a => inj a | None => PNone end.

(** [character.dict()]. *)
Definition dict_of (c : CharacterInput) : dict :=
  [ ("region", PStr (region c));
    ("primary_role", PStr (primary_role c));
    ("alignment", PStr (alignment c));
    ("status", PStr (status c));
    ("species", PStr (species c));
    ("honour_1to5", PInt (honour_1to5 c));
    ("ruthlessness_1to5", PInt (ruthlessness_1to5 c));
    ("intelligence_1to5", PInt (intelligence_1to5 c));
    ("combat_skill_1to5", PInt (combat_skill_1to5 c));
    ("diplomacy_1to5", PInt (diplomacy_1to5 c));
    ("leadership_1to5", PInt (leadership_1to5 c));
    ("trait_strategic", optional PBool (trait_strategic c));
    ("trait_impulsive", optional PBool (trait_impulsive c));
    ("trait_charismatic", optional PBool (trait_charismatic c));
    ("trait_vengeful", optional PBool (trait_vengeful c));
    ("trait_loyal", PBool (trait_loyal c));
    ("trait_scheming", PBool (trait_scheming c));
    ("feature_set_version", optional PFloat (feature_set_version c)) ].

(** The trained model: an opaque object whose [predict] raises or returns
    an array of labels. *)
Record Model : Type := {
  model_predict : DataFrame -> exn + list string
}.

(** The two globals, [model] and [feature_columns]. *)
Record globals : Type := {
  model : option Model;
  feature_columns : option (list string)
}.

(** The module-level initialisation: both are [None]. *)
Definition initial : globals :=
  {| model := None; feature_columns := None |}.

(** What [load_artifacts] observes of the outside world: whether the two
    paths exist, what [joblib.load(model_path)] does, and what opening the
    features file and reading [json.load(f)["columns"]] does.  A loaded
    value may be [None] (a pickled [None], a JSON [null]). *)
Record artifacts : Type := {
  model_path_exists : bool;
  features_path_exists : bool;
  joblib_load : exn + option Model;
  json_load_columns : exn + option (list string)
}.

(** [load_artifacts()] in full: how the call ends, the globals afterwards
    and the lines printed.  [except Exception] (line 52) handles what
    derives from [Exception]; any other exception leaves the call with the
    globals as they are at that point and nothing more printed. *)
Definition load_artifacts_run (fs : artifacts) (g : globals)
  : (exn + unit) * (globals * list string) :=
  if negb (model_path_exists fs) || negb (features_path_exists fs) then
    (inr tt,
     (g, ["WARNING: Model artifacts not found. Please place 'model.joblib' and 'feature_columns.json' in 'model_artifacts/'"]))
  else
    match joblib_load fs with
    | inl e =>
        if is_exception e
        then (inr tt, (g, ["Error loading artifacts: " ++ str_exn e]))
        else (inl e, (g, []))
    | inr m =>
        let g := {| model := m; feature_columns := feature_columns g |} in
        match json_load_columns fs with
        | inl e =>
            if is_exception e
            then (inr tt, (g, ["Error loading artifacts: " ++ str_exn e]))
            else (inl e, (g, []))
        | inr cols =>
            (inr tt,
             ({| model := model g; feature_columns := cols |},
              ["Model and metadata loaded successfully."]))
        end
    end.

(** [load_artifacts()]: the globals afterwards and the lines printed. *)
Definition load_artifacts (fs : artifacts) (g : globals)
  : globals * list string :=
  snd (load_artifacts_run fs g).

(** [lifespan]: [load_artifacts()] runs once, on the initial globals,
    before any request is served; these are the globals it leaves.  When
    the call raises, start-up stops and no request is served. *)
Definition startup (fs : artifacts) : globals :=
  fst (load_artifacts fs initial).

(** [data[key] = 1 if value else 0] for every value that is a [bool]. *)
Definition bool_to_int (v : value) : value :=
  match v with
  | PBool b => PInt (if b then 1 else 0)
  | _ => v
  end.

Definition bools_to_int (data : dict) : dict :=
  map (fun kv => (fst kv, bool_to_int (snd kv))) data.

(** The body of the response, [{"house_affiliation": label}]. *)
Record Response : Type := { house_affiliation : string }.

(** [async def predict(character: CharacterInput)].  An exception that
    leaves the handler is the [inl] of the result. *)
Definition predict (g : globals) (character : CharacterInput) : M Response :=
  match model g, feature_columns g with
  | Some model, Some feature_columns =>
      let data := bools_to_int (dict_of character) in
      df <- invoke CallDataFrame (inr (DataFrame_of_record data)) ;;
      df_encoded <- invoke CallGetDummies (inr (get_dummies df)) ;;
      df_aligned <- invoke CallReindex
                      (reindex df_encoded feature_columns (PInt 0)) ;;
      try_except
        (prediction <- invoke CallPredict (model_predict model df_aligned) ;;
         label <- getitem0 prediction ;;
         ret {| house_affiliation := label |})
        (fun e =>
           raise (HTTPException 500 ("Prediction failed: " ++ str_exn e)))
  | _, _ =>
      raise (HTTPException 503 "Model not loaded. Please check server logs.")
  end.

End App.

Import App.

(* ====================================================================== *)
(** * The vocabulary of the properties *)
(* ====================================================================== *)

(** The Feature Encoder: lines 68-80 of the handler, from the request to
    [df_encoded]. *)
Definition encode (character : CharacterInput) : DataFrame :=
  get_dummies (DataFrame_of_record (bools_to_int (dict_of character))).

(** The Aligner: line 84 of the handler. *)
Definition align (features : DataFrame) (schema : list string)
  : exn + DataFrame :=
  reindex features schema (PInt 0).

(** The five categorical string fields. *)
Inductive categorical : Type :=
| Region | PrimaryRole | Alignment | Status | Species.

Definition categorical_name (f : categorical) : string :=
  match f with
  | Region => "region"
  | PrimaryRole => "primary_role"
  | Alignment => "alignment"
  | Status => "status"
  | Species => "species"
  end.

Definition categorical_value (f : categorical) (c : CharacterInput) : string :=
  match f with
  | Region => region c
  | PrimaryRole => primary_role c
  | Alignment => alignment c
  | Status => status c
  | Species => species c
  end.

Definition all_categorical : list categorical :=
  [Region; PrimaryRole; Alignment; Status; Species].

(** The record with the categorical field [f] replaced by [w]. *)
Definition with_categorical (f : categorical) (w : string)
  (c : CharacterInput) : CharacterInput :=
  {| region := match f with Region => w | _ => region c end;
     primary_role := match f with PrimaryRole => w | _ => primary_role c end;
     alignment := match f with Alignment => w | _ => alignment c end;
     status := match f with Status => w | _ => status c end;
     species := match f with Species => w | _ => species c end;
     honour_1to5 := honour_1to5 c;
     ruthlessness_1to5 := ruthlessness_1to5 c;
     intelligence_1to5 := intelligence_1to5 c;
     combat_skill_1to5 := combat_skill_1to5 c;
     diplomacy_1to5 := diplomacy_1to5 c;
     leadership_1to5 := leadership_1to5 c;
     trait_strategic := trait_strategic c;
     trait_impulsive := trait_impulsive c;
     trait_charismatic := trait_charismatic c;
     trait_vengeful := trait_vengeful c;
     trait_loyal := trait_loyal c;
     trait_scheming := trait_scheming c;
     feature_set_version := feature_set_version c |}.

(** The six integer ratings. *)
Inductive rating : Type :=
| Honour | Ruthlessness | Intelligence | CombatSkill | Diplomacy | Leadership.

Definition rating_name (f : rating) : string :=
  match f with
  | Honour => "honour_1to5"
  | Ruthlessness => "ruthlessness_1to5"
  | Intelligence => "intelligence_1to5"
  | CombatSkill => "combat_skill_1to5"
  | Diplomacy => "diplomacy_1to5"
  | Leadership => "leadership_1to5"
  end.

Definition rating_value (f : rating) (c : CharacterInput) : Z :=
  match f with
  | Honour => honour_1to5 c
  | Ruthlessness => ruthlessness_1to5 c
  | Intelligence => intelligence_1to5 c
  | CombatSkill => combat_skill_1to5 c
  | Diplomacy => diplomacy_1to5 c
  | Leadership => leadership_1to5 c
  end.

Definition all_ratings : list rating :=
  [Honour; Ruthlessness; Intelligence; CombatSkill; Diplomacy; Leadership].

(** The six boolean traits; the first four may be null. *)
Inductive trait : Type :=
| Strategic | Impulsive | Charismatic | Vengeful | Loyal | Scheming.

Definition trait_name (f : trait) : string :=
  match f with
  | Strategic => "trait_strategic"
  | Impulsive => "trait_impulsive"
  | Charismatic => "trait_charismatic"
  | Vengeful => "trait_vengeful"
  | Loyal => "trait_loyal"
  | Scheming => "trait_scheming"
  end.

Definition trait_value (f : trait) (c : CharacterInput) : option bool :=
  match f with
  | Strategic => trait_strategic c
  | Impulsive => trait_impulsive c
  | Charismatic => trait_charismatic c
  | Vengeful => trait_vengeful c
  | Loyal => Some (trait_loyal c)
  | Scheming => Some (trait_scheming c)
  end.

(** The record with [feature_set_version] replaced by [v]. *)
Definition with_feature_set_version (v : option float)
  (c : CharacterInput) : CharacterInput :=
  {| region := region c;
     primary_role := primary_role c;
     alignment := alignment c;
     status := status c;
     species := species c;
     honour_1to5 := honour_1to5 c;
     ruthlessness_1to5 := ruthlessness_1to5 c;
     intelligence_1to5 := intelligence_1to5 c;
     combat_skill_1to5 := combat_skill_1to5 c;
     diplomacy_1to5 := diplomacy_1to5 c;
     leadership_1to5 := leadership_1to5 c;
     trait_strategic := trait_strategic c;
     trait_impulsive := trait_impulsive c;
     trait_charismatic := trait_charismatic c;
     trait_vengeful := trait_vengeful c;
     trait_loyal := trait_loyal c;
     trait_scheming := trait_scheming c;
     feature_set_version := v |}.

(** A valid input record: every rating lies in its domain, 1 to 5.  The
    strings, the traits and the version tag are unconstrained. *)
Definition in_domain (z : Z) : bool := (1 <=? z) && (z <=? 5).

Definition valid_record (c : CharacterInput) : Prop :=
  forallb (fun f => in_domain (rating_value f c)) all_ratings = true.

(** Some categorical field holds the literal text [nan]. *)
Definition has_literal_nan (c : CharacterInput) : bool :=
  existsb (fun f => String.eqb (categorical_value f c) "nan") all_categorical.

(** The globals are both set. *)
Definition ready (g : globals) : Prop :=
  model g <> None /\ feature_columns g <> None.

(** Globals with both the model and the schema set. *)
Definition serving (m : Model) (schema : list string) : globals :=
  {| model := Some m; feature_columns := Some schema |}.

(** The two errors the handler raises itself. *)
Definition not_ready_error : exn :=
  HTTPException 503 "Model not loaded. Please check server logs.".

Definition prediction_failed (e : exn) : exn :=
  HTTPException 500 ("Prediction failed: " ++ str_exn e).

(** The number of calls to [model.predict] in a trace. *)
Definition inferences (t : list call) : nat :=
  length (filter (fun c => match c with CallPredict => true | _ => false end) t).

(** The indicator group of a categorical field in the schema: the columns
    named [<field>_...]. *)
Definition in_group (f : categorical) (column : string) : bool :=
  String.prefix (categorical_name f ++ "_") column.

(** The field names, in declaration order. *)
Definition field_names : list string :=
  ["region"; "primary_role"; "alignment"; "status"; "species";
   "honour_1to5"; "ruthlessness_1to5"; "intelligence_1to5";
   "combat_skill_1to5"; "diplomacy_1to5"; "leadership_1to5";
   "trait_strategic"; "trait_impulsive"; "trait_charismatic";
   "trait_vengeful"; "trait_loyal"; "trait_scheming";
   "feature_set_version"].

(** The request's dict without its last entry, [feature_set_version]. *)
Definition other_fields (c : CharacterInput) : dict :=
  removelast (bools_to_int (dict_of c)).

(** No field name followed by [_] begins another field name followed by
    [_]: the columns made from one field cannot be mistaken for those made
    from another. *)
Definition independent (keys : list string) : bool :=
  forallb
    (fun k1 =>
       forallb
         (fun k2 =>
            String.eqb k1 k2 || negb (String.prefix (k1 ++ "_") (k2 ++ "_")))
         keys)
    keys.

(** The label [l] is none of the names [keys] and begins with none of them
    followed by [_]. *)
Definition foreign (l : string) (keys : list string) : bool :=
  forallb
    (fun k => negb (String.eqb l k) && negb (String.prefix (k ++ "_") l))
    keys.

(** Where a categorical field stands in the request's dict. *)
Definition position (f : categorical) : nat :=
  match f with
  | Region => 0
  | PrimaryRole => 1
  | Alignment => 2
  | Status => 3
  | Species => 4
  end.

(** The entries of the request's dict before and after the field [f]. *)
Definition before (f : categorical) (c : CharacterInput) : dict :=
  firstn (position f) (bools_to_int (dict_of c)).

Definition after (f : categorical) (c : CharacterInput) : dict :=
  skipn (S (position f)) (bools_to_int (dict_of c)).

(** The encoding from which the field [f] is entirely absent: the request
    is encoded without its entry for [f]. *)
Definition encode_without (f : categorical) (c : CharacterInput)
  : DataFrame :=
  get_dummies
    (DataFrame_of_record
       (filter (fun kv => negb (String.eqb (fst kv) (categorical_name f)))
          (bools_to_int (dict_of c)))).

(** A frame in which the two dummy columns of the field [k], holding the
    value [v], stand between the columns [A] and [B] made from the other
    fields. *)
Definition framed (A B : DataFrame) (k v : string) : DataFrame :=
  (A ++ ((k ++ "_" ++ v)%string, PInt 1) ::
        ((k ++ "_nan")%string, PInt 0) :: B)%list.

(** ** Concrete inputs *)

Definition jon : CharacterInput :=
  {| region := "North";
     primary_role := "Commander";
     alignment := "Lawful Good";
     status := "Alive";
     species := "Human";
     honour_1to5 := 5;
     ruthlessness_1to5 := 2;
     intelligence_1to5 := 3;
     combat_skill_1to5 := 5;
     diplomacy_1to5 := 3;
     leadership_1to5 := 4;
     trait_strategic := Some true;
     trait_impulsive := Some false;
     trait_charismatic := Some true;
     trait_vengeful := Some false;
     trait_loyal := true;
     trait_scheming := false;
     feature_set_version := Some 1%float |}.

(** The same request with the region spelled [nan]. *)
Definition jon_nan : CharacterInput := with_categorical Region "nan" jon.

Definition small_schema : list string :=
  ["region_North"; "region_South"; "region_nan"; "honour_1to5";
   "trait_loyal"; "species_Human"; "species_nan"].

(** A model that answers every frame with one label. *)
Definition stark_model : Model :=
  {| model_predict := fun _ => inr ["Stark"] |}.

(** A model whose [predict] returns an empty array. *)
Definition silent_model : Model :=
  {| model_predict := fun _ => inr [] |}.

(** A model whose [predict] ends the process instead of answering. *)
Definition exiting_model : Model :=
  {| model_predict := fun _ => inl (BaseRaised "bye") |}.

(** A model whose [predict] raises. *)
Definition broken_model : Model :=
  {| model_predict := fun _ => inl (Raised "X has 7 features, but the classifier is expecting 40 features as input.") |}.

(** A schema that knows two regions and no missing-value column. *)
Definition plain_schema : list string :=
  ["region_North"; "region_South"; "honour_1to5"; "trait_loyal"].

(** Artifacts where the model file loads and the features file is not
    valid JSON. *)
Definition half_loaded : artifacts :=
  {| model_path_exists := true;
     features_path_exists := true;
     joblib_load := inr (Some stark_model);
     json_load_columns :=
       inl (Raised "Expecting value: line 1 column 1 (char 0)") |}.

(* ====================================================================== *)
(** * Further vocabulary: the handler's outcomes, start-up, field kinds *)
(* ====================================================================== *)



Definition inference_trace : list call :=
  [CallDataFrame; CallGetDummies; CallReindex; CallPredict].

(** The line [load_artifacts] prints when neither load raised. *)
Definition success_line : string := "Model and metadata loaded successfully.".

(** Both artifact files exist. *)
Definition files_exist (fs : artifacts) : bool :=
  model_path_exists fs && features_path_exists fs.

(** Artifacts where both files load and the features file says
    [{"columns": null}]. *)
Definition null_columns : artifacts :=
  {| model_path_exists := true;
     features_path_exists := true;
     joblib_load := inr (Some stark_model);
     json_load_columns := inr None |}.

(** An integer that [pd.DataFrame] keeps in a 64-bit integer column. *)
Definition numeric_rating (z : Z) : bool := fits_int64 z || fits_uint64 z.



(** The four traits that may be null. *)
Inductive optional_trait : Type :=
| OptStrategic | OptImpulsive | OptCharismatic | OptVengeful.

Definition optional_trait_name (t : optional_trait) : string :=
  match t with
  | OptStrategic => "trait_strategic"
  | OptImpulsive => "trait_impulsive"
  | OptCharismatic => "trait_charismatic"
  | OptVengeful => "trait_vengeful"
  end.

(** Where an optional trait stands in the request's dict. *)
Definition optional_trait_index (t : optional_trait) : nat :=
  match t with
  | OptStrategic => 11
  | OptImpulsive => 12
  | OptCharismatic => 13
  | OptVengeful => 14
  end.

(** The record with the optional trait [t] replaced by [o]. *)
Definition with_optional_trait (t : optional_trait) (o : option bool)
  (c : CharacterInput) : CharacterInput :=
  {| region := region c;
     primary_role := primary_role c;
     alignment := alignment c;
     status := status c;
     species := species c;
     honour_1to5 := honour_1to5 c;
     ruthlessness_1to5 := ruthlessness_1to5 c;
     intelligence_1to5 := intelligence_1to5 c;
     combat_skill_1to5 := combat_skill_1to5 c;
     diplomacy_1to5 := diplomacy_1to5 c;
     leadership_1to5 := leadership_1to5 c;
     trait_strategic :=
       match t with OptStrategic => o | _ => trait_strategic c end;
     trait_impulsive :=
       match t with OptImpulsive => o | _ => trait_impulsive c end;
     trait_charismatic :=
       match t with OptCharismatic => o | _ => trait_charismatic c end;
     trait_vengeful :=
       match t with OptVengeful => o | _ => trait_vengeful c end;
     trait_loyal := trait_loyal c;
     trait_scheming := trait_scheming c;
     feature_set_version := feature_set_version c |}.

(** The entries of the request's dict before and after its [i]-th. *)
Definition entries_before (i : nat) (c : CharacterInput) : dict :=
  firstn i (bools_to_int (dict_of c)).

Definition entries_after (i : nat) (c : CharacterInput) : dict :=
  skipn (S i) (bools_to_int (dict_of c)).

(** The record with the rating [r] replaced by [z]. *)
Definition with_rating (r : rating) (z : Z) (c : CharacterInput)
  : CharacterInput :=
  {| region := region c;
     primary_role := primary_role c;
     alignment := alignment c;
     status := status c;
     species := species c;
     honour_1to5 := match r with Honour => z | _ => honour_1to5 c end;
     ruthlessness_1to5 :=
       match r with Ruthlessness => z | _ => ruthlessness_1to5 c end;
     intelligence_1to5 :=
       match r with Intelligence => z | _ => intelligence_1to5 c end;
     combat_skill_1to5 :=
       match r with CombatSkill => z | _ => combat_skill_1to5 c end;
     diplomacy_1to5 :=
       match r with Diplomacy => z | _ => diplomacy_1to5 c end;
     leadership_1to5 :=
       match r with Leadership => z | _ => leadership_1to5 c end;
     trait_strategic := trait_strategic c;
     trait_impulsive := trait_impulsive c;
     trait_charismatic := trait_charismatic c;
     trait_vengeful := trait_vengeful c;
     trait_loyal := trait_loyal c;
     trait_scheming := trait_scheming c;
     feature_set_version := feature_set_version c |}.

(** A model that answers frames with exactly the columns [schema] and
    refuses every other frame. *)
Definition strict_model (schema : list string) : Model :=
  {| model_predict := fun df =>
       if list_eqb (columns df) schema then inr ["Stark"]
       else inl (Raised "The feature names should match those that were passed during fit.") |}.

(** A rating far outside its domain that still fits a 64-bit column, and
    one that fits none. *)
Definition jon_99 : CharacterInput := with_rating Honour 99 jon.

Definition jon_huge : CharacterInput := with_rating Honour (2 ^ 64) jon.

(** A schema that names an optional trait. *)
Definition trait_schema : list string :=
  ["trait_strategic"; "honour_1to5"; "region_North"].

(* ====================================================================== *)
(** * [src/pipelines/pipeline.py] *)
(* ====================================================================== *)

Module Pipeline.

(** What [main] observes of the Azure SDK, call by call: connecting
    ([DefaultAzureCredential()] and [MLClient.from_config], lines 14-17),
    building the job ([Environment], [command], the decorated
    [prepare_pipeline], [Input] and the call of [prepare_pipeline], lines
    24-102), and [ml_client.jobs.create_or_update], which returns the
    job's [studio_url] (lines 105-108).  Each raises or returns.  The
    [except Exception] of line 18 handles what derives from [Exception]
    and nothing else. *)
Record workspace : Type := {
  connect : exn + unit;
  build_job : exn + unit;
  create_or_update : exn + string
}.

(** What [main] does to the outside: the lines it prints and the jobs it
    submits, each with its [experiment_name]. *)
Inductive effect : Type :=
| Print (line : string)
| Submit (experiment_name : string).

(** [main()]: how it ends (returns, or raises) and its effects in
    order. *)
Definition main (w : workspace) : (exn + unit) * list effect :=
  match connect w with
  | inl e =>
      if is_exception e then
        (inr tt,
         [Print ("Could not connect to workspace: " ++ str_exn e);
          Print "Please ensure you have a config.json file or update the script with your workspace details."])
      else (inl e, [])
  | inr _ =>
      match build_job w with
      | inl e => (inl e, [])
      | inr _ =>
          match create_or_update w with
          | inl e => (inl e, [Submit "got-prepare-pipeline"])
          | inr studio_url =>
              (inr tt,
               [Submit "got-prepare-pipeline";
                Print ("Pipeline submitted. Job URL: " ++ studio_url)])
          end
      end
  end.

Definition is_submit (x : effect) : bool :=
  match x with Submit _ => true | Print _ => false end.

(** The number of jobs submitted. *)
Definition submissions (effects : list effect) : nat :=
  length (filter is_submit effects).

End Pipeline.

(** From here on [++] is list concatenation; on strings it is written
    with its scope. *)
Local Open Scope list_scope.

(* ====================================================================== *)
(** * Labels: equality tests, membership and uniqueness *)
(* ====================================================================== *)

Section Labels.

Lemma list_eqb_spec (xs ys : list string) :
  list_eqb xs ys = true <-> xs = ys.
Proof.
  revert ys; induction xs as [|x xs IH]; intros [|y ys]; simpl;
    try (split; [discriminate | congruence]).
  - tauto.
  - rewrite andb_true_iff, String.eqb_eq, IH.
    split; [intros [-> ->]; reflexivity | intros [= -> ->]; auto].
Qed.

Lemma list_eqb_refl (xs : list string) : list_eqb xs xs = true.
Proof. apply list_eqb_spec; reflexivity. Qed.

Lemma mem_spec (x : string) (l : list string) : mem x l = true <-> In x l.
Proof.
  unfold mem; rewrite existsb_exists; split.
  - intros (y & Hy & E). apply String.eqb_eq in E. subst; assumption.
  - intros H. exists x. split; [assumption | apply String.eqb_refl].
Qed.

Lemma mem_false (x : string) (l : list string) :
  mem x l = false <-> ~ In x l.
Proof.
  rewrite <- mem_spec. destruct (mem x l); split; congruence.
Qed.

Lemma is_unique_spec (l : list string) : is_unique l = true <-> NoDup l.
Proof.
  induction l as [|x l IH]; simpl.
  - split; [constructor | reflexivity].
  - rewrite andb_true_iff, negb_true_iff, mem_false, IH. split.
    + intros [H1 H2]; constructor; assumption.
    + intros H; inversion H; subst; split; assumption.
Qed.

Lemma is_unique_false (l : list string) :
  is_unique l = false <-> ~ NoDup l.
Proof.
  rewrite <- is_unique_spec. destruct (is_unique l); split; congruence.
Qed.

(** A label that occurs twice in a row, anywhere in the list, makes the
    list non-unique. *)
Lemma repeated_label_not_unique (pre post : list string) (x : string) :
  ~ NoDup (pre ++ x :: x :: post).
Proof.
  intros H. apply NoDup_remove_2 in H. apply H.
  apply in_or_app; right; left; reflexivity.
Qed.

End Labels.

(* ====================================================================== *)
(** * Looking a label up in a frame *)
(* ====================================================================== *)

Section Lookup.

Lemma lookup_None (c : string) (df : DataFrame) :
  lookup c df = None <-> ~ In c (columns df).
Proof.
  induction df as [|[k v] df IH]; simpl.
  - tauto.
  - destruct (String.eqb_spec c k) as [->|N].
    + split; [discriminate | intros H; exfalso; apply H; left; reflexivity].
    + rewrite IH. split.
      * intros H [E|I]; [apply N; symmetry; exact E | exact (H I)].
      * intros H I; apply H; right; exact I.
Qed.

Lemma lookup_In (c : string) (v : value) (df : DataFrame) :
  lookup c df = Some v -> In (c, v) df.
Proof.
  induction df as [|[k w] df IH]; simpl; [discriminate|].
  destruct (String.eqb_spec c k) as [->|N].
  - intros [= ->]; left; reflexivity.
  - intros H; right; apply IH, H.
Qed.

(** In a frame with distinct labels, the cell of a column is what
    [lookup] finds under its label. *)
Lemma In_lookup (c : string) (v : value) (df : DataFrame) :
  NoDup (columns df) -> In (c, v) df -> lookup c df = Some v.
Proof.
  induction df as [|[k w] df IH]; simpl; [tauto|].
  intros ND [E|I].
  - injection E as -> ->. rewrite String.eqb_refl. reflexivity.
  - inversion ND as [|? ? Hk ND']; subst.
    destruct (String.eqb_spec c k) as [->|N].
    + exfalso. apply Hk. change k with (fst (k, v)). apply in_map, I.
    + apply IH; assumption.
Qed.

Lemma lookup_app (c : string) (a b : DataFrame) :
  lookup c (a ++ b) =
  match lookup c a with Some v => Some v | None => lookup c b end.
Proof.
  induction a as [|[k v] a IH]; simpl; [reflexivity|].
  destruct (String.eqb c k); [reflexivity | exact IH].
Qed.

Lemma get_own_columns (df : DataFrame) (fill : value) :
  NoDup (columns df) ->
  map (fun c => (c, get c df fill)) (columns df) = df.
Proof.
  induction df as [|[k v] df IH]; simpl; [reflexivity|].
  intros ND; inversion ND as [|? ? Hk ND']; subst.
  unfold get at 1; simpl. rewrite String.eqb_refl. f_equal.
  rewrite <- (IH ND') at 2.
  apply map_ext_in. intros c Hc. unfold get; simpl.
  destruct (String.eqb_spec c k) as [->|N]; [contradiction | reflexivity].
Qed.

End Lookup.

(* ====================================================================== *)
(** * The Aligner *)
(* ====================================================================== *)

Section Aligner.

Variable fill : value.

Lemma reindex_same_columns (df : DataFrame) :
  reindex df (columns df) fill = inr df.
Proof. unfold reindex. rewrite list_eqb_refl. reflexivity. Qed.

(** On a frame with distinct labels [reindex] never raises, whatever the
    target: it is the label-by-label selection. *)
Lemma reindex_unique (df : DataFrame) (target : list string) :
  NoDup (columns df) ->
  reindex df target fill = inr (map (fun c => (c, get c df fill)) target).
Proof.
  intros ND. unfold reindex.
  destruct (list_eqb (columns df) target) eqn:E.
  - apply list_eqb_spec in E; subst target.
    rewrite get_own_columns by assumption. reflexivity.
  - unfold take_labels. apply is_unique_spec in ND. rewrite ND. reflexivity.
Qed.

(** A frame with a repeated label is refused, unless the target repeats
    the frame's labels exactly. *)
Lemma reindex_duplicate (df : DataFrame) (target : list string) :
  ~ NoDup (columns df) -> columns df <> target ->
  reindex df target fill =
  inl (ValueError "cannot reindex on an axis with duplicate labels").
Proof.
  intros D N. unfold reindex.
  destruct (list_eqb (columns df) target) eqn:E.
  - apply list_eqb_spec in E. contradiction.
  - unfold take_labels. apply is_unique_false in D. rewrite D. reflexivity.
Qed.

(** Whenever [reindex] returns, the columns of the result are the target. *)
Lemma reindex_columns (df out : DataFrame) (target : list string) :
  reindex df target fill = inr out -> columns out = target.
Proof.
  unfold reindex.
  destruct (list_eqb (columns df) target) eqn:E.
  - intros [= <-]. apply list_eqb_spec, E.
  - unfold take_labels.
    destruct (is_unique (columns df)); simpl; [|discriminate].
    intros [= <-]. unfold columns. rewrite map_map. simpl. apply map_id.
Qed.

End Aligner.

Section AlignerProperties.

Lemma get_present (c : string) (v fill : value) (df : DataFrame) :
  NoDup (columns df) -> In (c, v) df -> get c df fill = v.
Proof.
  intros ND I. unfold get. rewrite (In_lookup c v df ND I). reflexivity.
Qed.

Lemma get_absent (c : string) (fill : value) (df : DataFrame) :
  ~ In c (columns df) -> get c df fill = fill.
Proof.
  intros N. unfold get. apply lookup_None in N. rewrite N. reflexivity.
Qed.

(** X16 -- Aligner correctness on distinct keys.  For every frame whose
    column names are pairwise distinct and every schema, [align]
    returns, without raising, the frame that has exactly the schema's
    columns in schema order, where the cell under each schema name is the
    map's value for that name when the name is a key of the map and 0
    otherwise; a key of the map that is not a schema column does not occur
    in the result. *)
Theorem aligner_correct (features : DataFrame) (schema : list string) :
  NoDup (columns features) ->
  exists aligned,
    align features schema = inr aligned /\
    aligned = map (fun name => (name, get name features (PInt 0))) schema /\
    columns aligned = schema /\
    (forall name v, In (name, v) features ->
                    get name features (PInt 0) = v) /\
    (forall name, ~ In name (columns features) ->
                  get name features (PInt 0) = PInt 0) /\
    (forall key, In key (columns features) -> ~ In key schema ->
                 ~ In key (columns aligned)).
Proof.
  intros ND.
  exists (map (fun name => (name, get name features (PInt 0))) schema).
  assert (C : columns (map (fun name => (name, get name features (PInt 0)))
                         schema) = schema).
  { unfold columns. rewrite map_map. simpl. apply map_id. }
  split; [apply reindex_unique, ND|].
  split; [reflexivity|].
  split; [exact C|].
  split; [intros name v I; apply get_present; assumption|].
  split; [intros name N; apply get_absent; assumption|].
  intros key _ N. rewrite C. exact N.
Qed.

Lemma aligner_correct_witness :
  NoDup (columns (encode jon)) /\
  exists aligned,
    align (encode jon) small_schema = inr aligned /\
    aligned = map (fun name => (name, get name (encode jon) (PInt 0)))
                small_schema /\
    columns aligned = small_schema /\
    (forall name v, In (name, v) (encode jon) ->
                    get name (encode jon) (PInt 0) = v) /\
    (forall name, ~ In name (columns (encode jon)) ->
                  get name (encode jon) (PInt 0) = PInt 0) /\
    (forall key, In key (columns (encode jon)) -> ~ In key small_schema ->
                 ~ In key (columns aligned)).
Proof.
  assert (ND : NoDup (columns (encode jon)))
    by (apply is_unique_spec; vm_compute; reflexivity).
  split; [exact ND | exact (aligner_correct (encode jon) small_schema ND)].
Defined.

Lemma columns_combine (schema : list string) (vector : list value) :
  length vector = length schema -> columns (combine schema vector) = schema.
Proof.
  revert vector; induction schema as [|c schema IH]; intros [|v vector];
    simpl; try discriminate; [reflexivity|].
  intros [= H]. f_equal. apply IH, H.
Qed.

(** C6 -- Alignment idempotence.  For every schema, a vector in schema
    order, read as the frame that labels its cells with the schema's column
    names, is returned unchanged by [align] against that schema; and
    whatever [align] returns is returned unchanged when aligned again. *)
Theorem align_idempotent (schema : list string) :
  (forall vector, length vector = length schema ->
     align (combine schema vector) schema = inr (combine schema vector)) /\
  (forall features aligned, align features schema = inr aligned ->
     align aligned schema = inr aligned).
Proof.
  split.
  - intros vector L. unfold align.
    rewrite <- (columns_combine schema vector L) at 2.
    apply reindex_same_columns.
  - intros features aligned H. unfold align in *.
    rewrite <- (reindex_columns _ _ _ _ H) at 1.
    apply reindex_same_columns.
Qed.

Lemma align_idempotent_witness :
  let vector := [PInt 1; PInt 0; PInt 0; PInt 5; PInt 1; PInt 1; PInt 0] in
  length vector = length small_schema /\
  align (combine small_schema vector) small_schema =
    inr (combine small_schema vector) /\
  align (encode jon) small_schema = inr (combine small_schema vector) /\
  align (combine small_schema vector) small_schema =
    inr (combine small_schema vector).
Proof.
  intros vector.
  assert (L : length vector = length small_schema) by reflexivity.
  assert (A : align (encode jon) small_schema =
              inr (combine small_schema vector)) by (vm_compute; reflexivity).
  split; [exact L|].
  split; [exact (proj1 (align_idempotent small_schema) vector L)|].
  split; [exact A|].
  exact (proj2 (align_idempotent small_schema) (encode jon) _ A).
Defined.

End AlignerProperties.

(* ====================================================================== *)
(** * The handler *)
(* ====================================================================== *)

Section Handler.

(** The handler on globals that are both set, step by step: the frame is
    built, encoded and aligned; an exception of [reindex] leaves the
    handler as it is; otherwise the model is asked once, and what the
    [try] block raises is turned into the 500 error when it derives from
    [Exception], and leaves the handler as it is when it does not. *)
Lemma predict_serving (m : Model) (schema : list string)
  (character : CharacterInput) :
  predict (serving m schema) character =
  match align (encode character) schema with
  | inl e => (inl e, [CallDataFrame; CallGetDummies; CallReindex])
  | inr df_aligned =>
      (match model_predict m df_aligned with
       | inl e => inl (if is_exception e then prediction_failed e else e)
       | inr [] =>
           inl (prediction_failed
                  (IndexError "index 0 is out of bounds for axis 0 with size 0"))
       | inr (label :: _) => inr {| house_affiliation := label |}
       end,
       [CallDataFrame; CallGetDummies; CallReindex; CallPredict])
  end.
Proof.
  unfold predict, serving, align, encode; simpl.
  unfold bind, invoke; simpl.
  destruct (reindex _ schema (PInt 0)) as [e|df_aligned]; simpl;
    [reflexivity|].
  unfold try_except; simpl.
  destruct (model_predict m df_aligned) as [e|[|label rest]];
    [destruct e|..]; reflexivity.
Qed.

(** The guard of the handler: with a global unset nothing else runs. *)
Lemma predict_guard (g : globals) (character : CharacterInput) :
  predict g character =
  match model g, feature_columns g with
  | Some m, Some schema => predict (serving m schema) character
  | _, _ => (inl not_ready_error, [])
  end.
Proof.
  unfold predict, serving; simpl.
  destruct (model g), (feature_columns g); reflexivity.
Qed.

(** C3 -- Not-ready guarantee.  Whenever the model or the feature-column
    list is unset, [predict] raises the 503 "not loaded" error for every
    input record, with or without ratings in their domain, and makes no
    library call: no frame is built, encoded or aligned and the model is
    not asked. *)
Theorem predict_not_ready (g : globals) (character : CharacterInput) :
  model g = None \/ feature_columns g = None ->
  predict g character = (inl not_ready_error, []).
Proof.
  intros H. rewrite predict_guard.
  destruct H as [H|H]; rewrite H; [reflexivity|].
  destruct (model g); reflexivity.
Qed.

Lemma predict_not_ready_witness :
  (model initial = None \/ feature_columns initial = None) /\
  predict initial jon = (inl not_ready_error, []).
Proof.
  split; [left; reflexivity|].
  apply (predict_not_ready initial jon). left; reflexivity.
Defined.

(** The globals [load_artifacts] leaves, however the call ends. *)
Lemma load_artifacts_globals (fs : artifacts) (g : globals) :
  fst (load_artifacts fs g) =
  if negb (model_path_exists fs) || negb (features_path_exists fs) then g
  else
    match joblib_load fs with
    | inl _ => g
    | inr m =>
        match json_load_columns fs with
        | inl _ => {| model := m; feature_columns := feature_columns g |}
        | inr cols => {| model := m; feature_columns := cols |}
        end
    end.
Proof.
  unfold load_artifacts, load_artifacts_run.
  destruct (negb (model_path_exists fs) || negb (features_path_exists fs));
    [reflexivity|].
  destruct (joblib_load fs) as [e|m];
    [destruct (is_exception e); reflexivity|].
  destruct (json_load_columns fs) as [e|cols];
    [destruct (is_exception e); reflexivity | reflexivity].
Qed.

(** [load_artifacts] sets [feature_columns] only after it has set [model],
    and only from a features file that was read. *)
Lemma startup_ready (fs : artifacts) :
  ready (startup fs) ->
  model_path_exists fs = true /\ features_path_exists fs = true /\
  (exists m, joblib_load fs = inr (Some m)) /\
  (exists cols, json_load_columns fs = inr (Some cols)).
Proof.
  unfold ready, startup. rewrite load_artifacts_globals.
  destruct (model_path_exists fs), (features_path_exists fs); simpl;
    try (intros [H _]; exfalso; apply H; reflexivity).
  destruct (joblib_load fs) as [e|[m|]]; simpl;
    try (intros [H _]; exfalso; apply H; reflexivity);
    destruct (json_load_columns fs) as [e'|[cols|]]; simpl;
    try (intros [H _]; exfalso; apply H; reflexivity);
    try (intros [_ H]; exfalso; apply H; reflexivity).
  intros _. repeat split; eauto.
Qed.

(** C9 -- Partial-load safety.  After start-up, if either global is still
    unset then every request is rejected with the 503 error; in
    particular, when the model file loads and reading the features file
    then raises, the model is set, the feature-column list is not, and
    every request is rejected; and the globals are both set only when both
    files existed and both were read to a value.  The handler never
    assigns the globals, so this holds for every request served
    afterwards. *)
Theorem partial_load_not_ready (fs : artifacts) :
  (model (startup fs) = None \/ feature_columns (startup fs) = None ->
   forall character,
     predict (startup fs) character = (inl not_ready_error, [])) /\
  (forall m e,
     model_path_exists fs = true -> features_path_exists fs = true ->
     joblib_load fs = inr (Some m) -> json_load_columns fs = inl e ->
     model (startup fs) = Some m /\
     feature_columns (startup fs) = None /\
     ~ ready (startup fs) /\
     forall character,
       predict (startup fs) character = (inl not_ready_error, [])) /\
  (ready (startup fs) ->
   model_path_exists fs = true /\ features_path_exists fs = true /\
   (exists m, joblib_load fs = inr (Some m)) /\
   (exists cols, json_load_columns fs = inr (Some cols))).
Proof.
  split; [|split].
  - intros H character. rewrite predict_guard.
    destruct H as [H|H]; rewrite H; [reflexivity|].
    destruct (model (startup fs)); reflexivity.
  - intros m e E1 E2 J C.
    assert (S : startup fs = {| model := Some m; feature_columns := None |}).
    { unfold startup. rewrite load_artifacts_globals, E1, E2, J, C.
      reflexivity. }
    rewrite S. simpl. repeat split.
    intros [_ H]. apply H. reflexivity.
  - apply startup_ready.
Qed.

Lemma partial_load_not_ready_witness :
  (model (startup half_loaded) = None \/
   feature_columns (startup half_loaded) = None) /\
  model (startup half_loaded) = Some stark_model /\
  feature_columns (startup half_loaded) = None /\
  ~ ready (startup half_loaded) /\
  forall character,
    predict (startup half_loaded) character = (inl not_ready_error, []).
Proof.
  split; [right; reflexivity|].
  exact (proj1 (proj2 (partial_load_not_ready half_loaded)) stark_model _
           eq_refl eq_refl eq_refl eq_refl).
Defined.

(** C7 -- Prediction-failure handling, as the handler does it.  For every
    request that reaches inference, the model's [predict] is called exactly
    once.  If the call raises an exception that derives from [Exception],
    or returns an array with no first element so that [prediction[0]]
    raises, the handler raises exactly the 500 "Prediction failed" error
    carrying the text of the exception; if the call raises an exception
    that does not derive from [Exception], that exception leaves the
    handler as it is; otherwise the handler returns exactly the first
    label.  The outcome is one error or one label, never both and never
    neither. *)
Theorem prediction_outcome (m : Model) (schema : list string)
  (character : CharacterInput) (df_aligned : DataFrame) :
  align (encode character) schema = inr df_aligned ->
  inferences (snd (predict (serving m schema) character)) = 1%nat /\
  match model_predict m df_aligned with
  | inl e =>
      fst (predict (serving m schema) character) =
      inl (if is_exception e then prediction_failed e else e)
  | inr [] =>
      fst (predict (serving m schema) character) =
      inl (prediction_failed
             (IndexError "index 0 is out of bounds for axis 0 with size 0"))
  | inr (label :: _) =>
      fst (predict (serving m schema) character) =
      inr {| house_affiliation := label |}
  end.
Proof.
  intros A. rewrite predict_serving, A. simpl.
  split; [reflexivity|].
  destruct (model_predict m df_aligned) as [e|[|label rest]]; reflexivity.
Qed.

Lemma prediction_outcome_witness :
  let df_aligned :=
    combine small_schema
      [PInt 1; PInt 0; PInt 0; PInt 5; PInt 1; PInt 1; PInt 0] in
  align (encode jon) small_schema = inr df_aligned /\
  (inferences (snd (predict (serving stark_model small_schema) jon)) = 1%nat /\
   fst (predict (serving stark_model small_schema) jon) =
     inr {| house_affiliation := "Stark" |}) /\
  (inferences (snd (predict (serving broken_model small_schema) jon)) = 1%nat /\
   fst (predict (serving broken_model small_schema) jon) =
     inl (HTTPException 500
            "Prediction failed: X has 7 features, but the classifier is expecting 40 features as input.")) /\
  (inferences (snd (predict (serving exiting_model small_schema) jon)) = 1%nat /\
   fst (predict (serving exiting_model small_schema) jon) =
     inl (BaseRaised "bye")).
Proof.
  intros df_aligned.
  assert (A : align (encode jon) small_schema = inr df_aligned)
    by (vm_compute; reflexivity).
  split; [exact A|]. split; [|split].
  - exact (prediction_outcome stark_model small_schema jon _ A).
  - exact (prediction_outcome broken_model small_schema jon _ A).
  - exact (prediction_outcome exiting_model small_schema jon _ A).
Defined.

(** Two requests that reach inference and get no "Prediction failed" the
    way the claim has it.  With one model, [predict] returns without
    raising and the handler still answers with the 500 error and no label:
    the returned array is empty.  With the other, [predict] raises and the
    handler does not answer with the 500 error: the exception does not
    derive from [Exception] and leaves the handler as it is. *)
Lemma prediction_returns_yet_fails :
  exists df_aligned,
    align (encode jon) small_schema = inr df_aligned /\
    (model_predict silent_model df_aligned = inr [] /\
     predict (serving silent_model small_schema) jon =
       (inl (HTTPException 500
               "Prediction failed: index 0 is out of bounds for axis 0 with size 0"),
        [CallDataFrame; CallGetDummies; CallReindex; CallPredict])) /\
    (model_predict exiting_model df_aligned = inl (BaseRaised "bye") /\
     predict (serving exiting_model small_schema) jon =
       (inl (BaseRaised "bye"),
        [CallDataFrame; CallGetDummies; CallReindex; CallPredict])).
Proof.
  eexists. split; [vm_compute; reflexivity|].
  split; split; reflexivity.
Qed.

End Handler.

(* ====================================================================== *)
(** * The Feature Encoder *)
(* ====================================================================== *)

Section GetDummies.

Variable df : DataFrame.

(** A column of a numeric dtype is kept, under its own label. *)
Lemma get_dummies_numeric (k : string) (v : value) :
  In (k, v) df -> classify v = Numeric -> In (k, v) (get_dummies df).
Proof.
  intros I C. unfold get_dummies. apply in_or_app; left.
  apply filter_In. split; [exact I|].
  unfold is_numeric; simpl. rewrite C. reflexivity.
Qed.

(** An object column holding a level [l] gives the indicator [k_l], set,
    and the indicator [k_nan], clear. *)
Lemma get_dummies_level (k l : string) (v : value) :
  In (k, v) df -> classify v = ObjectLevel l ->
  In ((k ++ "_" ++ l)%string, PInt 1) (get_dummies df) /\
  In ((k ++ "_nan")%string, PInt 0) (get_dummies df).
Proof.
  intros I C. unfold get_dummies.
  split; apply in_or_app; right; apply in_flat_map; exists (k, v);
    (split; [exact I|]); unfold dummies; simpl; rewrite C; simpl.
  - left; reflexivity.
  - right; left; reflexivity.
Qed.

(** An object column holding a null gives only the indicator [k_nan],
    set. *)
Lemma get_dummies_null (k : string) (v : value) :
  In (k, v) df -> classify v = ObjectNull ->
  In ((k ++ "_nan")%string, PInt 1) (get_dummies df).
Proof.
  intros I C. unfold get_dummies.
  apply in_or_app; right; apply in_flat_map; exists (k, v).
  split; [exact I|]. unfold dummies; simpl; rewrite C; simpl.
  left; reflexivity.
Qed.

(** A string cell spelled [nan] gives two columns with the same label. *)
Lemma get_dummies_literal_nan (k : string) :
  In (k, PStr "nan") df -> ~ NoDup (columns (get_dummies df)).
Proof.
  intros I. apply in_split in I. destruct I as (d1 & d2 & E).
  unfold get_dummies, columns. rewrite E at 2.
  rewrite flat_map_app. simpl flat_map.
  repeat rewrite map_app. simpl map.
  rewrite app_assoc.
  apply repeated_label_not_unique.
Qed.

End GetDummies.

Section Encoder.

Lemma in_domain_numeric (z : Z) :
  in_domain z = true -> classify (PInt z) = Numeric.
Proof.
  unfold in_domain, classify, fits_int64. intros H.
  apply andb_true_iff in H. destruct H as [L U].
  apply Z.leb_le in L. apply Z.leb_le in U.
  assert (A : (- 2 ^ 63 <=? z) = true) by (apply Z.leb_le; lia).
  assert (B : (z <? 2 ^ 63) = true) by (apply Z.ltb_lt; lia).
  rewrite A, B. reflexivity.
Qed.

Lemma valid_record_rating (character : CharacterInput) (r : rating) :
  valid_record character -> in_domain (rating_value r character) = true.
Proof.
  unfold valid_record. rewrite forallb_forall. intros H. apply H.
  destruct r; simpl; tauto.
Qed.

(** The dict the frame is built from holds every field under its name. *)
Lemma dict_categorical (character : CharacterInput) (f : categorical) :
  In (categorical_name f, PStr (categorical_value f character))
     (bools_to_int (dict_of character)).
Proof. destruct f; simpl; tauto. Qed.

Lemma dict_rating (character : CharacterInput) (r : rating) :
  In (rating_name r, PInt (rating_value r character))
     (bools_to_int (dict_of character)).
Proof. destruct r; simpl; tauto. Qed.

Lemma dict_trait (character : CharacterInput) (t : trait) (b : bool) :
  trait_value t character = Some b ->
  In (trait_name t, PInt (if b then 1 else 0))
     (bools_to_int (dict_of character)).
Proof.
  destruct character; destruct t; simpl; intros E;
    first [rewrite E | injection E as <-]; simpl; tauto.
Qed.

Lemma dict_version (character : CharacterInput) (v : float) :
  feature_set_version character = Some v ->
  In ("feature_set_version", PFloat v) (bools_to_int (dict_of character)).
Proof.
  destruct character; simpl; intros ->; simpl.
  repeat (try (left; reflexivity); right).
Qed.

(** Each categorical field gives its two indicator columns, whatever the
    other fields hold. *)
Lemma encode_categorical (character : CharacterInput) (f : categorical) :
  In ((categorical_name f ++ "_" ++ categorical_value f character)%string,
      PInt 1) (encode character) /\
  In ((categorical_name f ++ "_nan")%string, PInt 0) (encode character).
Proof.
  unfold encode, DataFrame_of_record.
  eapply get_dummies_level; [apply dict_categorical | reflexivity].
Qed.

(** C4 -- Encoder correctness.  For every valid input record the encoded
    frame holds: each trait that is a boolean, under its own name, as 1
    for true and 0 for false; each rating and the version tag, under its
    own name, unchanged; and for each of the five categorical fields the
    column [<field>_<value>] with cell 1 together with the column
    [<field>_nan] with cell 0. *)
Theorem encoder_correct (character : CharacterInput) :
  valid_record character ->
  (forall t b, trait_value t character = Some b ->
     In (trait_name t, PInt (if b then 1 else 0)) (encode character)) /\
  (forall r,
     In (rating_name r, PInt (rating_value r character))
        (encode character)) /\
  (forall v, feature_set_version character = Some v ->
     In ("feature_set_version", PFloat v) (encode character)) /\
  (forall f,
     In ((categorical_name f ++ "_" ++ categorical_value f character)%string,
         PInt 1) (encode character) /\
     In ((categorical_name f ++ "_nan")%string, PInt 0) (encode character)).
Proof.
  intros V. split; [|split; [|split]].
  - intros t b E. apply get_dummies_numeric.
    + apply dict_trait, E.
    + destruct b; reflexivity.
  - intros r. apply get_dummies_numeric.
    + apply dict_rating.
    + apply in_domain_numeric, valid_record_rating, V.
  - intros v E. apply get_dummies_numeric.
    + apply dict_version, E.
    + reflexivity.
  - intros f. apply encode_categorical.
Qed.

Lemma encoder_correct_witness :
  valid_record jon /\
  In ("trait_loyal", PInt 1) (encode jon) /\
  In ("trait_impulsive", PInt 0) (encode jon) /\
  In ("honour_1to5", PInt 5) (encode jon) /\
  In ("feature_set_version", PFloat 1%float) (encode jon) /\
  In ("region_North", PInt 1) (encode jon) /\
  In ("region_nan", PInt 0) (encode jon).
Proof.
  assert (V : valid_record jon) by reflexivity.
  destruct (encoder_correct jon V) as (T & R & F & C).
  split; [exact V|].
  split; [exact (T Loyal true eq_refl)|].
  split; [exact (T Impulsive false eq_refl)|].
  split; [exact (R Honour)|].
  split; [exact (F 1%float eq_refl)|].
  exact (C Region).
Defined.

(** The frame of a record with a categorical field spelled [nan] has a
    repeated label. *)
Lemma encode_literal_nan (character : CharacterInput) :
  has_literal_nan character = true -> ~ NoDup (columns (encode character)).
Proof.
  unfold has_literal_nan. rewrite existsb_exists.
  intros (f & _ & E). apply String.eqb_eq in E.
  unfold encode, DataFrame_of_record.
  apply get_dummies_literal_nan with (k := categorical_name f).
  rewrite <- E. apply dict_categorical.
Qed.

(** C10 -- Literal-"nan" input hazard.  There is a valid input record in
    which a categorical field has the literal value [nan]; and for every
    such record the encoded frame has two columns named [<field>_nan], one
    set and one clear, and on every schema with distinct column names
    [reindex] raises its [ValueError] before the [try] block is entered:
    the exception leaves the handler as it is, the model is never asked,
    and the outcome is neither a label nor the 500 "Prediction failed"
    error. *)
Theorem literal_nan_unhandled :
  (exists character,
     valid_record character /\ has_literal_nan character = true) /\
  forall character m schema,
    has_literal_nan character = true -> NoDup schema ->
    (exists f,
       categorical_value f character = "nan" /\
       In ((categorical_name f ++ "_nan")%string, PInt 1)
          (encode character) /\
       In ((categorical_name f ++ "_nan")%string, PInt 0)
          (encode character)) /\
    predict (serving m schema) character =
      (inl (ValueError "cannot reindex on an axis with duplicate labels"),
       [CallDataFrame; CallGetDummies; CallReindex]) /\
    inferences (snd (predict (serving m schema) character)) = 0%nat /\
    (forall label, fst (predict (serving m schema) character) <>
                   inr {| house_affiliation := label |}) /\
    (forall e, fst (predict (serving m schema) character) <>
               inl (prediction_failed e)).
Proof.
  split; [exists jon_nan; split; reflexivity|].
  intros character m schema H ND.
  assert (D : ~ NoDup (columns (encode character)))
    by (apply encode_literal_nan, H).
  assert (P : predict (serving m schema) character =
              (inl (ValueError "cannot reindex on an axis with duplicate labels"),
               [CallDataFrame; CallGetDummies; CallReindex])).
  { rewrite predict_serving. unfold align.
    rewrite reindex_duplicate; [reflexivity | exact D |].
    intros E. apply D. rewrite E. exact ND. }
  split.
  - unfold has_literal_nan in H. apply existsb_exists in H.
    destruct H as (f & _ & E). apply String.eqb_eq in E.
    exists f. split; [exact E|].
    pose proof (encode_categorical character f) as C.
    rewrite E in C. exact C.
  - rewrite P. simpl. repeat split; try discriminate.
Qed.

Lemma literal_nan_unhandled_witness :
  valid_record jon_nan /\ has_literal_nan jon_nan = true /\
  NoDup small_schema /\
  predict (serving stark_model small_schema) jon_nan =
    (inl (ValueError "cannot reindex on an axis with duplicate labels"),
     [CallDataFrame; CallGetDummies; CallReindex]).
Proof.
  assert (V : valid_record jon_nan) by reflexivity.
  assert (H : has_literal_nan jon_nan = true) by reflexivity.
  assert (ND : NoDup small_schema)
    by (apply is_unique_spec; vm_compute; reflexivity).
  split; [exact V|]. split; [exact H|]. split; [exact ND|].
  exact (proj1 (proj2 (proj2 literal_nan_unhandled jon_nan stark_model
                         small_schema H ND))).
Defined.

(** C1 at a failing input: the frame the handler builds for a valid
    record whose region is spelled [nan] has the key [status_Alive], which
    is no column of the schema; the key is not dropped without error,
    and no schema column gets its value or 0: the frame has two columns
    named [region_nan] and [align] raises. *)
Lemma aligner_raises_on_repeated_key :
  valid_record jon_nan /\
  In ("region_nan", PInt 1) (encode jon_nan) /\
  In ("region_nan", PInt 0) (encode jon_nan) /\
  In "status_Alive" (columns (encode jon_nan)) /\
  mem "status_Alive" small_schema = false /\
  is_unique small_schema = true /\
  align (encode jon_nan) small_schema =
    inl (ValueError "cannot reindex on an axis with duplicate labels").
Proof.
  split; [reflexivity|].
  split; [vm_compute; tauto|]. split; [vm_compute; tauto|].
  split; [vm_compute; tauto|].
  split; [reflexivity|]. split; vm_compute; reflexivity.
Qed.

(** C2 at a failing input: a valid record whose region is spelled [nan],
    against a schema of seven distinct columns, is not aligned to any
    vector; [reindex] raises. *)
Lemma length_invariant_fails_on_literal_nan :
  valid_record jon_nan /\ NoDup small_schema /\
  length small_schema = 7%nat /\
  align (encode jon_nan) small_schema =
    inl (ValueError "cannot reindex on an axis with duplicate labels").
Proof.
  split; [reflexivity|].
  split; [apply is_unique_spec; vm_compute; reflexivity|].
  split; [reflexivity | vm_compute; reflexivity].
Qed.

(** C5 at a failing input: the region [nan] is not in the vocabulary of
    [plain_schema] (no column is named [region_nan]), and the handler
    raises instead of scoring the request with the region group at 0. *)
Lemma unknown_category_fails_on_literal_nan :
  valid_record jon_nan /\
  categorical_value Region jon_nan = "nan" /\
  mem "region_nan" plain_schema = false /\
  align (encode jon_nan) plain_schema =
    inl (ValueError "cannot reindex on an axis with duplicate labels") /\
  predict (serving stark_model plain_schema) jon_nan =
    (inl (ValueError "cannot reindex on an axis with duplicate labels"),
     [CallDataFrame; CallGetDummies; CallReindex]).
Proof.
  split; [reflexivity|]. split; [reflexivity|]. split; [reflexivity|].
  split; vm_compute; reflexivity.
Qed.

End Encoder.

(* ====================================================================== *)
(** * Column names and their prefixes *)
(* ====================================================================== *)

Section Prefixes.

Local Open Scope string_scope.

Lemma append_assoc (a b c : string) : (a ++ b) ++ c = a ++ (b ++ c).
Proof. induction a as [|x a IH]; simpl; [reflexivity | rewrite IH; reflexivity]. Qed.

Lemma append_inj (a b c : string) : a ++ b = a ++ c -> b = c.
Proof. induction a as [|x a IH]; simpl; [tauto | intros [= H]; apply IH, H]. Qed.

Lemma prefix_append (a b : string) : String.prefix a (a ++ b) = true.
Proof.
  induction a as [|x a IH]; simpl.
  - destruct b; reflexivity.
  - destruct (ascii_dec x x) as [_|N]; [exact IH | contradiction].
Qed.

Lemma prefix_cons (x y : ascii) (a b : string) :
  String.prefix (String x a) (String y b) = true <->
  x = y /\ String.prefix a b = true.
Proof.
  simpl. destruct (ascii_dec x y) as [E|N].
  - tauto.
  - split; [discriminate | intros [E _]; contradiction].
Qed.

Lemma prefix_empty (a : string) : String.prefix "" a = true.
Proof. destruct a; reflexivity. Qed.

(** Two prefixes of one string are prefixes of one another, one way or the
    other. *)
Lemma prefix_common (a b s : string) :
  String.prefix a s = true -> String.prefix b s = true ->
  String.prefix a b = true \/ String.prefix b a = true.
Proof.
  revert a b; induction s as [|z s IH]; intros [|x a] [|y b];
    try (intros _ _; left; apply prefix_empty);
    try (intros _ _; right; apply prefix_empty);
    try discriminate.
  rewrite !prefix_cons. intros [-> Ha] [-> Hb].
  destruct (IH a b Ha Hb) as [H|H]; [left | right]; split; auto.
Qed.

Lemma prefix_trans (a b c : string) :
  String.prefix a b = true -> String.prefix b c = true ->
  String.prefix a c = true.
Proof.
  revert b c; induction a as [|x a IH]; intros [|y b] [|z c];
    try discriminate; try (intros _ _; reflexivity).
  rewrite !prefix_cons. intros [-> Ha] [-> Hb]. split; [reflexivity|].
  apply (IH b c); assumption.
Qed.

Lemma prefix_length (a b : string) :
  String.prefix a b = true -> (String.length a <= String.length b)%nat.
Proof.
  revert b; induction a as [|x a IH]; intros [|y b]; simpl;
    try discriminate; try lia.
  destruct (ascii_dec x y); [|discriminate].
  intros H. apply IH in H. lia.
Qed.

Lemma length_append (a b : string) :
  String.length (a ++ b) = (String.length a + String.length b)%nat.
Proof. induction a as [|x a IH]; simpl; [reflexivity | rewrite IH; reflexivity]. Qed.

(** A name never begins with itself followed by [_]. *)
Lemma prefix_self_underscore (k : string) :
  String.prefix (k ++ "_") k = false.
Proof.
  destruct (String.prefix (k ++ "_") k) eqn:E; [|reflexivity].
  apply prefix_length in E. rewrite length_append in E. simpl in E. lia.
Qed.

Lemma prefix_underscore (k l : string) :
  String.prefix (k ++ "_") (k ++ "_" ++ l) = true.
Proof. rewrite <- append_assoc. apply prefix_append. Qed.

Lemma prefix_nan (k : string) :
  String.prefix (k ++ "_") (k ++ "_nan") = true.
Proof. exact (prefix_underscore k "nan"). Qed.

Lemma independent_spec (keys : list string) (k1 k2 : string) :
  independent keys = true -> In k1 keys -> In k2 keys -> k1 <> k2 ->
  String.prefix (k1 ++ "_") (k2 ++ "_") = false.
Proof.
  unfold independent. rewrite forallb_forall. intros H I1 I2 N.
  specialize (H k1 I1). rewrite forallb_forall in H. specialize (H k2 I2).
  apply orb_true_iff in H. destruct H as [H|H].
  - apply String.eqb_eq in H. contradiction.
  - apply negb_true_iff in H. exact H.
Qed.

End Prefixes.

Section GetDummiesColumns.

Variable df : DataFrame.

(** Every cell of a dummy frame is under a label that begins with the
    encoded column's name and [_]. *)
Lemma dummies_prefix (c : string * value) (l : string) (v : value) :
  In (l, v) (dummies c) -> String.prefix (fst c ++ "_")%string l = true.
Proof.
  unfold dummies. destruct (classify (snd c)) as [| |lv]; simpl; [tauto| |].
  - intros [[= <- _]|[]]. exact (prefix_underscore (fst c) "nan").
  - intros [[= <- _]|[[= <- _]|[]]].
    + exact (prefix_underscore (fst c) lv).
    + exact (prefix_underscore (fst c) "nan").
Qed.

(** A column of the encoded frame is a numeric column of the frame, under
    its own name, or a dummy column of one of its object columns. *)
Lemma get_dummies_inv (l : string) (v : value) :
  In (l, v) (get_dummies df) ->
  (In (l, v) df /\ classify v = Numeric) \/
  (exists c, In c df /\ classify (snd c) <> Numeric /\ In (l, v) (dummies c)).
Proof.
  unfold get_dummies. intros I. apply in_app_or in I. destruct I as [I|I].
  - left. apply filter_In in I. destruct I as [I N]. split; [exact I|].
    unfold is_numeric in N; simpl in N. destruct (classify v); congruence.
  - right. apply in_flat_map in I. destruct I as (c & Ic & Il).
    exists c. split; [exact Ic|]. split; [|exact Il].
    intros E. unfold dummies in Il. rewrite E in Il. exact Il.
Qed.

(** Every label of the encoded frame is a column name of the frame or
    begins with one followed by [_]. *)
Lemma get_dummies_columns (l : string) :
  In l (columns (get_dummies df)) ->
  exists k, In k (columns df) /\
            (l = k \/ String.prefix (k ++ "_")%string l = true).
Proof.
  unfold columns at 1. rewrite in_map_iff. intros ([l' v] & E & I).
  simpl in E; subst l'. apply get_dummies_inv in I.
  destruct I as [[I _]|(c & Ic & _ & Il)].
  - exists l. split; [|left; reflexivity].
    change l with (fst (l, v)). apply in_map, I.
  - exists (fst c). split; [apply in_map, Ic|].
    right. apply dummies_prefix with (v := v), Il.
Qed.

End GetDummiesColumns.

(* ====================================================================== *)
(** * A column the schema does not name *)
(* ====================================================================== *)

Section ForeignColumn.

Variables (a b : DataFrame) (k : string) (x fill : value).
Variable target : list string.

Hypothesis not_in_target : ~ In k target.
Hypothesis not_in_frame : ~ In k (columns (a ++ b)).

Lemma columns_insert :
  columns (a ++ (k, x) :: b) = columns a ++ k :: columns b.
Proof. unfold columns. rewrite map_app. reflexivity. Qed.

Lemma is_unique_insert :
  is_unique (columns (a ++ (k, x) :: b)) = is_unique (columns (a ++ b)).
Proof.
  apply eq_true_iff_eq. rewrite !is_unique_spec, columns_insert.
  unfold columns in *. rewrite map_app in *. split.
  - apply NoDup_remove_1.
  - intros ND. apply Permutation_NoDup with (l := k :: map fst a ++ map fst b).
    + apply Permutation_middle.
    + constructor; assumption.
Qed.

Lemma get_insert (c : string) :
  c <> k -> get c (a ++ (k, x) :: b) fill = get c (a ++ b) fill.
Proof.
  intros N. unfold get. rewrite !lookup_app. simpl.
  destruct (String.eqb_spec c k) as [E|_]; [contradiction | reflexivity].
Qed.

Lemma take_labels_foreign :
  take_labels (a ++ (k, x) :: b) target fill = take_labels (a ++ b) target fill.
Proof.
  unfold take_labels. rewrite is_unique_insert.
  destruct (is_unique (columns (a ++ b))); simpl; [|reflexivity].
  f_equal. apply map_ext_in. intros c Hc. f_equal.
  apply get_insert. intros ->. contradiction.
Qed.

(** A column under a label that neither the schema nor the rest of the
    frame uses does not change what [reindex] does. *)
Lemma reindex_foreign :
  reindex (a ++ (k, x) :: b) target fill = take_labels (a ++ b) target fill.
Proof.
  unfold reindex.
  destruct (list_eqb (columns (a ++ (k, x) :: b)) target) eqn:E.
  - apply list_eqb_spec in E. exfalso. apply not_in_target.
    rewrite <- E, columns_insert. apply in_or_app; right; left; reflexivity.
  - apply take_labels_foreign.
Qed.

End ForeignColumn.

Section Version.

Lemma foreign_spec (l : string) (df : DataFrame) :
  foreign l (columns df) = true -> ~ In l (columns (get_dummies df)).
Proof.
  unfold foreign. rewrite forallb_forall. intros F I.
  apply get_dummies_columns in I. destruct I as (k & Ik & H).
  specialize (F k Ik). apply andb_true_iff in F. destruct F as [F1 F2].
  apply negb_true_iff in F1, F2. destruct H as [->|H].
  - rewrite String.eqb_refl in F1. discriminate.
  - congruence.
Qed.

Lemma dict_split (character : CharacterInput) :
  bools_to_int (dict_of character) =
  other_fields character ++
  [("feature_set_version",
    bool_to_int (optional PFloat (feature_set_version character)))].
Proof. destruct character; reflexivity. Qed.

Lemma other_fields_version (v : option float) (character : CharacterInput) :
  other_fields (with_feature_set_version v character) =
  other_fields character.
Proof. destruct character; reflexivity. Qed.

Lemma other_fields_foreign (character : CharacterInput) :
  foreign "feature_set_version" (columns (other_fields character)) = true /\
  foreign "feature_set_version_nan" (columns (other_fields character)) = true.
Proof. destruct character; split; vm_compute; reflexivity. Qed.

(** Where the version tag lands in the encoded frame: as a float it is the
    last of the numeric columns; as a null it is encoded, last of all. *)
Lemma encode_version (character : CharacterInput) :
  encode character =
  match feature_set_version character with
  | Some f =>
      filter is_numeric (other_fields character) ++
      ("feature_set_version", PFloat f) ::
      flat_map dummies (other_fields character)
  | None =>
      get_dummies (other_fields character) ++
      ("feature_set_version_nan", PInt 1) :: []
  end.
Proof.
  unfold encode, DataFrame_of_record. rewrite dict_split.
  generalize (other_fields character) as rest. intros rest.
  unfold get_dummies. rewrite filter_app, flat_map_app.
  destruct (feature_set_version character); simpl.
  - rewrite app_nil_r, <- app_assoc. reflexivity.
  - rewrite app_nil_r, <- app_assoc. reflexivity.
Qed.

(** Against a schema that names neither version column, alignment is the
    selection from the encoding of the other fields. *)
Lemma align_version (character : CharacterInput) (schema : list string) :
  ~ In "feature_set_version" schema ->
  ~ In "feature_set_version_nan" schema ->
  align (encode character) schema =
  take_labels (get_dummies (other_fields character)) schema (PInt 0).
Proof.
  intros S1 S2. destruct (other_fields_foreign character) as [F1 F2].
  apply foreign_spec in F1, F2.
  unfold align. rewrite encode_version.
  destruct (feature_set_version character).
  - apply reindex_foreign; assumption.
  - rewrite <- (app_nil_r (get_dummies (other_fields character))) at 2.
    apply reindex_foreign; [assumption|].
    rewrite app_nil_r. assumption.
Qed.

(** C8 -- feature_set_version noninterference, as the handler has it.  For
    every two input records that differ only in [feature_set_version], and
    every schema that has neither a column [feature_set_version] nor a
    column [feature_set_version_nan], encoding and aligning give the same
    outcome, and the handler gives the same outcome on the same model. *)
Theorem version_not_consumed (character : CharacterInput)
  (v : option float) (schema : list string) :
  ~ In "feature_set_version" schema ->
  ~ In "feature_set_version_nan" schema ->
  align (encode (with_feature_set_version v character)) schema =
    align (encode character) schema /\
  forall m,
    predict (serving m schema) (with_feature_set_version v character) =
    predict (serving m schema) character.
Proof.
  intros S1 S2.
  assert (A : align (encode (with_feature_set_version v character)) schema =
              align (encode character) schema).
  { rewrite !align_version by assumption.
    rewrite other_fields_version. reflexivity. }
  split; [exact A|].
  intros m. rewrite !predict_serving, A. reflexivity.
Qed.

Lemma version_not_consumed_witness :
  ~ In "feature_set_version" small_schema /\
  ~ In "feature_set_version_nan" small_schema /\
  align (encode (with_feature_set_version (Some 2%float) jon)) small_schema =
    align (encode jon) small_schema /\
  predict (serving stark_model small_schema)
    (with_feature_set_version (Some 2%float) jon) =
  predict (serving stark_model small_schema) jon.
Proof.
  assert (S1 : ~ In "feature_set_version" small_schema)
    by (apply mem_false; reflexivity).
  assert (S2 : ~ In "feature_set_version_nan" small_schema)
    by (apply mem_false; reflexivity).
  split; [exact S1|]. split; [exact S2|].
  destruct (version_not_consumed jon (Some 2%float) small_schema S1 S2)
    as [A P].
  split; [exact A | exact (P stark_model)].
Defined.

(** Two valid records that differ only in [feature_set_version] are
    aligned to different vectors when the schema has the column. *)
Lemma version_reaches_model :
  valid_record jon /\
  valid_record (with_feature_set_version (Some 2%float) jon) /\
  align (encode jon) ["feature_set_version"] =
    inr [("feature_set_version", PFloat 1%float)] /\
  align (encode (with_feature_set_version (Some 2%float) jon))
        ["feature_set_version"] =
    inr [("feature_set_version", PFloat 2%float)] /\
  align (encode (with_feature_set_version (Some 2%float) jon))
        ["feature_set_version"] <>
  align (encode jon) ["feature_set_version"].
Proof.
  split; [reflexivity|]. split; [reflexivity|].
  split; [vm_compute; reflexivity|]. split; [vm_compute; reflexivity|].
  intros E.
  apply (f_equal (fun r : exn + DataFrame =>
                    match r with
                    | inr ((_, PFloat f) :: _) => PrimFloat.eqb f 2%float
                    | _ => false
                    end)) in E.
  vm_compute in E. discriminate.
Qed.

End Version.

(* ====================================================================== *)
(** * When the encoded frame has distinct labels *)
(* ====================================================================== *)

Section Columns.

Lemma in_columns (l : string) (d : DataFrame) :
  In l (columns d) <-> exists v, In (l, v) d.
Proof.
  unfold columns. rewrite in_map_iff. split.
  - intros ([l' v] & E & I). simpl in E; subst. exists v; exact I.
  - intros (v & I). exists (l, v). split; [reflexivity | exact I].
Qed.

Lemma columns_filter_unique (f : string * value -> bool) (d : DataFrame) :
  NoDup (columns d) -> NoDup (columns (filter f d)).
Proof.
  induction d as [|c d IH]; simpl; [tauto|].
  intros ND. inversion ND as [|? ? N ND']; subst.
  destruct (f c); simpl; [|apply IH, ND'].
  constructor; [|apply IH, ND'].
  intros I. apply N. apply in_columns in I. destruct I as (v & I).
  apply filter_In in I. apply in_columns. exists v. apply I.
Qed.

Lemma columns_app (d1 d2 : DataFrame) :
  columns (d1 ++ d2) = columns d1 ++ columns d2.
Proof. apply map_app. Qed.

Lemma in_columns_dummies (l : string) (c : string * value) :
  In l (columns (dummies c)) -> String.prefix (fst c ++ "_")%string l = true.
Proof.
  intros I. apply in_columns in I. destruct I as (v & I).
  apply dummies_prefix with (v := v), I.
Qed.

Lemma in_columns_flat_map (l : string) (d : DataFrame) :
  In l (columns (flat_map dummies d)) ->
  exists c, In c d /\ In l (columns (dummies c)).
Proof.
  intros I. apply in_columns in I. destruct I as (v & I).
  apply in_flat_map in I. destruct I as (c & Ic & Il).
  exists c. split; [exact Ic|]. apply in_columns. exists v. exact Il.
Qed.

End Columns.

Section Uniqueness.

Variable df : DataFrame.

Hypothesis keys_unique : NoDup (columns df).
Hypothesis keys_independent : independent (columns df) = true.
Hypothesis no_nan_level :
  forall k v, In (k, v) df -> classify v <> ObjectLevel "nan".

Lemma dummies_unique (c : string * value) :
  In c df -> NoDup (columns (dummies c)).
Proof.
  destruct c as [k v]. intros I. unfold dummies; simpl.
  destruct (classify v) as [| |l] eqn:C; simpl.
  - constructor.
  - constructor; [simpl; tauto | constructor].
  - constructor; [|constructor; [simpl; tauto | constructor]].
    simpl. intros [E|[]].
    apply append_inj in E. injection E as E.
    apply (no_nan_level k v I). rewrite C, E. reflexivity.
Qed.

(** The dummy columns of two different columns of the frame never share a
    label. *)
Lemma dummies_disjoint (c c' : string * value) (l : string) :
  In c df -> In c' df -> fst c <> fst c' ->
  In l (columns (dummies c)) -> ~ In l (columns (dummies c')).
Proof.
  intros I I' N L L'.
  apply in_columns_dummies in L, L'.
  assert (K : In (fst c) (columns df)) by (apply in_map, I).
  assert (K' : In (fst c') (columns df)) by (apply in_map, I').
  destruct (prefix_common _ _ _ L L') as [P|P].
  - rewrite (independent_spec _ _ _ keys_independent K K' N) in P.
    discriminate.
  - rewrite (independent_spec _ _ _ keys_independent K' K) in P;
      [discriminate | congruence].
Qed.

Lemma flat_map_dummies_unique (part : DataFrame) :
  incl part df -> NoDup (columns part) ->
  NoDup (columns (flat_map dummies part)).
Proof.
  induction part as [|c part IH]; simpl; [constructor|].
  intros Inc ND. inversion ND as [|? ? N ND']; subst.
  rewrite columns_app. apply NoDup_app.
  - apply dummies_unique, Inc. left; reflexivity.
  - apply IH; [|exact ND']. intros y Hy. apply Inc. right; exact Hy.
  - intros l L L'. apply in_columns_flat_map in L'.
    destruct L' as (c' & Ic' & L').
    assert (D : fst c <> fst c').
    { intros E. apply N. rewrite E. apply in_map, Ic'. }
    revert L'. apply (dummies_disjoint c c' l); auto.
    + apply Inc. left; reflexivity.
    + apply Inc. right; exact Ic'.
Qed.

(** A column kept under its own name is never the label of a dummy
    column. *)
Lemma kept_not_dummy (c c' : string * value) :
  In c df -> In c' df -> ~ In (fst c) (columns (dummies c')).
Proof.
  intros I I' L. apply in_columns_dummies in L.
  assert (K : In (fst c) (columns df)) by (apply in_map, I).
  assert (K' : In (fst c') (columns df)) by (apply in_map, I').
  destruct (String.eqb_spec (fst c') (fst c)) as [E|N].
  - rewrite E, prefix_self_underscore in L. discriminate.
  - assert (P : String.prefix (fst c' ++ "_")%string (fst c ++ "_")%string
                = true).
    { apply prefix_trans with (b := fst c); [exact L|].
      apply prefix_append. }
    rewrite (independent_spec _ _ _ keys_independent K' K N) in P.
    discriminate.
Qed.

(** [get_dummies] gives distinct labels when the frame's own labels are
    distinct and independent and no cell is the text [nan]. *)
Lemma get_dummies_unique : NoDup (columns (get_dummies df)).
Proof.
  unfold get_dummies. rewrite columns_app. apply NoDup_app.
  - apply columns_filter_unique, keys_unique.
  - apply flat_map_dummies_unique; [apply incl_refl | exact keys_unique].
  - intros l L L'.
    apply in_columns in L. destruct L as (v & L).
    apply filter_In in L. destruct L as [L _].
    apply in_columns_flat_map in L'. destruct L' as (c' & Ic' & L').
    exact (kept_not_dummy (l, v) c' L Ic' L').
Qed.

End Uniqueness.

Section EncodeUnique.

Lemma str_int_not_nan (z : Z) : str_int z <> "nan".
Proof.
  unfold str_int. destruct (Z.to_int z) as [d|d]; simpl.
  - destruct d; simpl; discriminate.
  - discriminate.
Qed.

Lemma classify_int_not_nan (z : Z) : classify (PInt z) <> ObjectLevel "nan".
Proof.
  unfold classify. destruct (fits_int64 z || fits_uint64 z); [discriminate|].
  intros [= E]. exact (str_int_not_nan z E).
Qed.

Lemma classify_str_not_nan (s : string) :
  String.eqb s "nan" = false -> classify (PStr s) <> ObjectLevel "nan".
Proof.
  intros H [= E]. rewrite E in H. discriminate.
Qed.

Lemma classify_optional_bool (o : option bool) :
  classify (bool_to_int (optional PBool o)) <> ObjectLevel "nan".
Proof. destruct o as [[|]|]; discriminate. Qed.

Lemma classify_optional_float (o : option float) :
  classify (bool_to_int (optional PFloat o)) <> ObjectLevel "nan".
Proof. destruct o; discriminate. Qed.

Lemma dict_columns (character : CharacterInput) :
  columns (bools_to_int (dict_of character)) = field_names.
Proof. reflexivity. Qed.

Lemma field_names_unique : NoDup field_names.
Proof. apply is_unique_spec. vm_compute. reflexivity. Qed.

Lemma field_names_independent : independent field_names = true.
Proof. vm_compute. reflexivity. Qed.

Lemma has_literal_nan_false (character : CharacterInput) :
  has_literal_nan character = false ->
  forall f, String.eqb (categorical_value f character) "nan" = false.
Proof.
  unfold has_literal_nan. intros H f.
  destruct (String.eqb (categorical_value f character) "nan") eqn:E;
    [|reflexivity].
  rewrite <- H. symmetry. apply existsb_exists. exists f.
  split; [destruct f; simpl; tauto | exact E].
Qed.

Lemma dict_no_nan_level (character : CharacterInput) :
  has_literal_nan character = false ->
  forall k v, In (k, v) (bools_to_int (dict_of character)) ->
              classify v <> ObjectLevel "nan".
Proof.
  intros H k v I.
  pose proof (has_literal_nan_false character H) as F.
  pose proof (F Region) as F1. pose proof (F PrimaryRole) as F2.
  pose proof (F Alignment) as F3. pose proof (F Status) as F4.
  pose proof (F Species) as F5. clear F H.
  destruct character; simpl in *.
  repeat (destruct I as [I|I];
          [injection I as <- <-;
           first [ apply classify_str_not_nan; assumption
                 | apply classify_int_not_nan
                 | apply classify_optional_bool
                 | apply classify_optional_float
                 | discriminate ] |]).
  contradiction.
Qed.

(** The encoded frame of a record has distinct labels exactly when no
    categorical field is spelled [nan]. *)
Lemma encode_unique (character : CharacterInput) :
  has_literal_nan character = false -> NoDup (columns (encode character)).
Proof.
  intros H. unfold encode, DataFrame_of_record. apply get_dummies_unique.
  - rewrite dict_columns. exact field_names_unique.
  - rewrite dict_columns. exact field_names_independent.
  - apply dict_no_nan_level, H.
Qed.

Lemma encode_unique_iff (character : CharacterInput) :
  NoDup (columns (encode character)) <-> has_literal_nan character = false.
Proof.
  split; [|apply encode_unique].
  intros ND. destruct (has_literal_nan character) eqn:E; [|reflexivity].
  exfalso. exact (encode_literal_nan character E ND).
Qed.

End EncodeUnique.

(* ====================================================================== *)
(** * One categorical field among the others *)
(* ====================================================================== *)

Section Around.

Variables (pre post : DataFrame) (k s : string).

Lemma get_dummies_without :
  get_dummies (pre ++ post) =
  (filter is_numeric (pre ++ post) ++ flat_map dummies pre) ++
  flat_map dummies post.
Proof.
  unfold get_dummies. rewrite flat_map_app, app_assoc. reflexivity.
Qed.

Lemma get_dummies_around :
  get_dummies (pre ++ (k, PStr s) :: post) =
  (filter is_numeric (pre ++ post) ++ flat_map dummies pre) ++
  ((k ++ "_" ++ s)%string, PInt 1) ::
  ((k ++ "_nan")%string, PInt 0) :: flat_map dummies post.
Proof.
  unfold get_dummies. rewrite !filter_app, flat_map_app. simpl.
  rewrite <- !app_assoc. reflexivity.
Qed.

End Around.

Section GroupFree.

Variables (keys : list string) (rest : DataFrame) (kf : string).

Hypothesis keys_independent : independent keys = true.
Hypothesis rest_keys : incl (columns rest) keys.
Hypothesis field_key : In kf keys.
Hypothesis field_absent : ~ In kf (columns rest).

(** Without the field, no column of the encoded frame is named
    [<field>_...]. *)
Lemma group_free (l : string) :
  In l (columns (get_dummies rest)) ->
  String.prefix (kf ++ "_")%string l = false.
Proof.
  intros I. apply get_dummies_columns in I. destruct I as (k & Ik & H).
  assert (N : kf <> k) by (intros ->; contradiction).
  assert (K : In k keys) by (apply rest_keys, Ik).
  destruct (String.prefix (kf ++ "_")%string l) eqn:P; [|reflexivity].
  exfalso. destruct H as [->|H].
  - assert (Q : String.prefix (kf ++ "_")%string (k ++ "_")%string = true).
    { apply prefix_trans with (b := k); [exact P | apply prefix_append]. }
    rewrite (independent_spec _ _ _ keys_independent field_key K N) in Q.
    discriminate.
  - destruct (prefix_common _ _ _ P H) as [Q|Q].
    + rewrite (independent_spec _ _ _ keys_independent field_key K N) in Q.
      discriminate.
    + rewrite (independent_spec _ _ _ keys_independent K field_key) in Q;
        [discriminate | congruence].
Qed.

End GroupFree.

Section GroupCells.

Variables (A B : DataFrame) (k : string).

Hypothesis free :
  forall l, In l (columns (A ++ B)) ->
            String.prefix (k ++ "_")%string l = false.

Lemma not_in_rest (l : string) :
  String.prefix (k ++ "_")%string l = true -> ~ In l (columns (A ++ B)).
Proof. intros P I. rewrite (free l I) in P. discriminate. Qed.

(** Outside the field's group, the cell does not depend on the field. *)
Lemma get_outside_group (v col : string) (fill : value) :
  String.prefix (k ++ "_")%string col = false ->
  get col (framed A B k v) fill = get col (A ++ B) fill.
Proof.
  intros P. unfold framed.
  rewrite get_insert.
  - rewrite get_insert; [reflexivity|].
    intros ->. rewrite prefix_nan in P. discriminate.
  - intros ->. rewrite (prefix_underscore k v) in P. discriminate.
Qed.

(** Inside the group, every cell but the one of the field's own value is
    0. *)
Lemma get_in_group (v col : string) :
  String.eqb v "nan" = false ->
  String.prefix (k ++ "_")%string col = true ->
  col <> (k ++ "_" ++ v)%string ->
  get col (framed A B k v) (PInt 0) = PInt 0.
Proof.
  intros V P N. unfold framed. rewrite get_insert by exact N.
  destruct (String.eqb_spec col (k ++ "_nan")%string) as [->|M].
  - unfold get. rewrite lookup_app.
    assert (L : lookup (k ++ "_nan")%string A = None).
    { apply lookup_None. intros I. apply (not_in_rest _ P).
      rewrite columns_app. apply in_or_app; left; exact I. }
    rewrite L. simpl. rewrite String.eqb_refl. reflexivity.
  - rewrite get_insert by exact M.
    apply get_absent, not_in_rest, P.
Qed.

Lemma get_group_absent (col : string) :
  String.prefix (k ++ "_")%string col = true ->
  get col (A ++ B) (PInt 0) = PInt 0.
Proof. intros P. apply get_absent, not_in_rest, P. Qed.

End GroupCells.

(* ====================================================================== *)
(** * Requests without a literal [nan] *)
(* ====================================================================== *)

Section NanFree.

Lemma incl_mem (l l' : list string) :
  forallb (fun x => mem x l') l = true -> incl l l'.
Proof.
  rewrite forallb_forall. intros H x I. apply mem_spec, H, I.
Qed.

Lemma dict_around (character : CharacterInput) (f : categorical) :
  bools_to_int (dict_of character) =
  before f character ++
  (categorical_name f, PStr (categorical_value f character)) ::
  after f character.
Proof. destruct f, character; reflexivity. Qed.

Lemma before_with (f : categorical) (w : string) (character : CharacterInput) :
  before f (with_categorical f w character) = before f character.
Proof. destruct f, character; reflexivity. Qed.

Lemma after_with (f : categorical) (w : string) (character : CharacterInput) :
  after f (with_categorical f w character) = after f character.
Proof. destruct f, character; reflexivity. Qed.

Lemma value_with (f : categorical) (w : string) (character : CharacterInput) :
  categorical_value f (with_categorical f w character) = w.
Proof. destruct f; reflexivity. Qed.

Lemma value_with_other (f g : categorical) (w : string)
  (character : CharacterInput) :
  f <> g ->
  categorical_value g (with_categorical f w character) =
  categorical_value g character.
Proof. destruct f, g; try reflexivity; congruence. Qed.

Lemma dict_without (f : categorical) (character : CharacterInput) :
  filter (fun kv => negb (String.eqb (fst kv) (categorical_name f)))
    (bools_to_int (dict_of character)) =
  before f character ++ after f character.
Proof. destruct f, character; reflexivity. Qed.

Lemma rest_keys (f : categorical) (character : CharacterInput) :
  incl (columns (before f character ++ after f character)) field_names /\
  ~ In (categorical_name f)
       (columns (before f character ++ after f character)) /\
  NoDup (columns (before f character ++ after f character)) /\
  independent (columns (before f character ++ after f character)) = true.
Proof.
  destruct f, character; repeat split;
    first [ apply incl_mem; vm_compute; reflexivity
          | apply mem_false; vm_compute; reflexivity
          | apply is_unique_spec; vm_compute; reflexivity
          | vm_compute; reflexivity ].
Qed.

Lemma rest_in_dict (f : categorical) (character : CharacterInput)
  (c : string * value) :
  In c (before f character ++ after f character) ->
  In c (bools_to_int (dict_of character)).
Proof.
  rewrite (dict_around character f). intros I.
  apply in_app_or in I. apply in_or_app.
  destruct I as [I|I]; [left | right; right]; exact I.
Qed.

(** The encoded frame around the two dummy columns of a field. *)
Lemma encode_around (character : CharacterInput) (f : categorical) :
  encode character =
  framed
    (filter is_numeric (before f character ++ after f character) ++
     flat_map dummies (before f character))
    (flat_map dummies (after f character))
    (categorical_name f) (categorical_value f character).
Proof.
  unfold encode, DataFrame_of_record.
  rewrite (dict_around character f) at 1. apply get_dummies_around.
Qed.

Lemma encode_without_around (character : CharacterInput) (f : categorical) :
  encode_without f character =
  (filter is_numeric (before f character ++ after f character) ++
   flat_map dummies (before f character)) ++
  flat_map dummies (after f character).
Proof.
  unfold encode_without, DataFrame_of_record.
  rewrite dict_without. apply get_dummies_without.
Qed.

(** No column made from the other fields is in the group of [f]. *)
Lemma others_group_free (character : CharacterInput) (f : categorical)
  (l : string) :
  In l (columns (encode_without f character)) -> in_group f l = false.
Proof.
  unfold encode_without, DataFrame_of_record, in_group.
  rewrite dict_without.
  destruct (rest_keys f character) as (Inc & Abs & _ & _).
  apply group_free with (keys := field_names).
  - exact field_names_independent.
  - exact Inc.
  - destruct f; simpl; tauto.
  - exact Abs.
Qed.

Lemma encode_without_unique (character : CharacterInput) (f : categorical) :
  has_literal_nan character = false ->
  NoDup (columns (encode_without f character)).
Proof.
  intros H. unfold encode_without, DataFrame_of_record.
  rewrite dict_without.
  destruct (rest_keys f character) as (_ & _ & ND & Ind).
  apply get_dummies_unique; [exact ND | exact Ind|].
  intros k v I. apply (dict_no_nan_level character H k v).
  apply (rest_in_dict f), I.
Qed.

Lemma with_categorical_nan_free (f : categorical) (w : string)
  (character : CharacterInput) :
  has_literal_nan character = false -> String.eqb w "nan" = false ->
  has_literal_nan (with_categorical f w character) = false.
Proof.
  intros H W. pose proof (has_literal_nan_false character H) as F.
  destruct (has_literal_nan (with_categorical f w character)) eqn:E;
    [|reflexivity].
  unfold has_literal_nan in E. apply existsb_exists in E.
  destruct E as (g & _ & E).
  destruct f, g; simpl in E; first [ rewrite W in E; discriminate | idtac ];
    first [ specialize (F Region); simpl in F; congruence
          | specialize (F PrimaryRole); simpl in F; congruence
          | specialize (F Alignment); simpl in F; congruence
          | specialize (F Status); simpl in F; congruence
          | specialize (F Species); simpl in F; congruence ].
Qed.

End NanFree.

Section Policies.

Lemma align_length (features aligned : DataFrame) (schema : list string) :
  align features schema = inr aligned -> length aligned = length schema.
Proof.
  intros H. apply reindex_columns in H. rewrite <- H.
  unfold columns. rewrite length_map. reflexivity.
Qed.

Lemma align_unique (features : DataFrame) (schema : list string) :
  NoDup (columns features) ->
  align features schema =
  inr (map (fun column => (column, get column features (PInt 0))) schema).
Proof. apply reindex_unique. Qed.

(** X1 -- The length invariant away from the literal [nan]: for every input
    record none of whose categorical fields is the text [nan], and every
    schema, encoding and aligning returns a frame with exactly the
    schema's columns, hence of the schema's length. *)
Theorem length_invariant (character : CharacterInput)
  (schema : list string) :
  has_literal_nan character = false ->
  exists aligned,
    align (encode character) schema = inr aligned /\
    columns aligned = schema /\
    length aligned = length schema.
Proof.
  intros H.
  pose proof (align_unique (encode character) schema
                (encode_unique character H)) as A.
  eexists. split; [exact A|].
  split.
  - exact (reindex_columns _ _ _ _ A).
  - exact (align_length _ _ _ A).
Qed.

Lemma length_invariant_witness :
  has_literal_nan jon = false /\
  exists aligned,
    align (encode jon) small_schema = inr aligned /\
    columns aligned = small_schema /\
    length aligned = 7%nat.
Proof.
  split; [reflexivity|].
  exact (length_invariant jon small_schema eq_refl).
Defined.

(** The cells of a record's encoded frame, group by group. *)
Lemma encode_cells (character : CharacterInput) (f : categorical)
  (column : string) :
  has_literal_nan character = false ->
  (in_group f column = false ->
   get column (encode character) (PInt 0) =
   get column (encode_without f character) (PInt 0)) /\
  (in_group f column = true ->
   column <>
   (categorical_name f ++ "_" ++ categorical_value f character)%string ->
   get column (encode character) (PInt 0) = PInt 0 /\
   get column (encode_without f character) (PInt 0) = PInt 0).
Proof.
  intros H.
  assert (Free : forall l,
            In l (columns
                    ((filter is_numeric
                        (before f character ++ after f character) ++
                      flat_map dummies (before f character)) ++
                     flat_map dummies (after f character))) ->
            String.prefix (categorical_name f ++ "_")%string l = false).
  { intros l I. rewrite <- encode_without_around in I.
    exact (others_group_free character f l I). }
  rewrite (encode_around character f), encode_without_around.
  unfold in_group. split.
  - intros P. apply get_outside_group; assumption.
  - intros P N. split.
    + apply get_in_group; try assumption.
      apply has_literal_nan_false, H.
    + apply get_group_absent with (k := categorical_name f); assumption.
Qed.

(** X2 -- The unknown-category policy away from the literal [nan]: for every
    input record none of whose categorical fields is the text [nan], every
    schema and every categorical field whose indicator [<field>_<value>]
    is not a schema column, aligning returns a vector; every schema
    position of the field's group holds 0; the vector is the one obtained
    from the encoding without the field; and a record that differs only in
    that field's value is aligned to a vector that agrees with it at every
    position outside the field's group. *)
Theorem unknown_category_policy (character : CharacterInput)
  (f : categorical) (schema : list string) :
  has_literal_nan character = false ->
  ~ In (categorical_name f ++ "_" ++ categorical_value f character)%string
       schema ->
  exists aligned,
    align (encode character) schema = inr aligned /\
    (forall i column,
       nth_error schema i = Some column -> in_group f column = true ->
       nth_error aligned i = Some (column, PInt 0)) /\
    align (encode_without f character) schema = inr aligned /\
    (forall w, String.eqb w "nan" = false ->
       exists aligned',
         align (encode (with_categorical f w character)) schema =
           inr aligned' /\
         forall i column,
           nth_error schema i = Some column -> in_group f column = false ->
           nth_error aligned' i = nth_error aligned i).
Proof.
  intros H U.
  exists (map (fun column => (column, get column (encode character) (PInt 0)))
            schema).
  split; [apply align_unique, encode_unique, H|].
  split; [|split].
  - intros i column I G. rewrite nth_error_map, I. simpl. do 2 f_equal.
    apply (encode_cells character f column H); [exact G|].
    intros E. apply U. rewrite <- E. apply nth_error_In with (n := i), I.
  - rewrite align_unique by (apply encode_without_unique, H).
    apply f_equal. apply map_ext_in. intros column I. apply f_equal.
    destruct (in_group f column) eqn:G.
    + assert (N : column <>
                  (categorical_name f ++ "_" ++
                   categorical_value f character)%string)
        by (intros E; apply U; rewrite <- E; exact I).
      destruct (proj2 (encode_cells character f column H) G N) as [-> ->].
      reflexivity.
    + symmetry. apply (encode_cells character f column H), G.
  - intros w W.
    pose proof (with_categorical_nan_free f w character H W) as H'.
    exists (map (fun column =>
                   (column,
                    get column (encode (with_categorical f w character))
                      (PInt 0))) schema).
    split; [apply align_unique, encode_unique, H'|].
    intros i column I G. rewrite !nth_error_map, I. simpl. do 2 f_equal.
    rewrite (proj1 (encode_cells _ f column H') G).
    rewrite (proj1 (encode_cells _ f column H) G).
    rewrite !encode_without_around, before_with, after_with. reflexivity.
Qed.

Lemma unknown_category_policy_witness :
  has_literal_nan (with_categorical Region "Essos" jon) = false /\
  ~ In "region_Essos" small_schema /\
  align (encode (with_categorical Region "Essos" jon)) small_schema =
    inr (combine small_schema
           [PInt 0; PInt 0; PInt 0; PInt 5; PInt 1; PInt 1; PInt 0]) /\
  align (encode_without Region (with_categorical Region "Essos" jon))
        small_schema =
    inr (combine small_schema
           [PInt 0; PInt 0; PInt 0; PInt 5; PInt 1; PInt 1; PInt 0]).
Proof.
  assert (H : has_literal_nan (with_categorical Region "Essos" jon) = false)
    by reflexivity.
  assert (U : ~ In "region_Essos" small_schema)
    by (apply mem_false; reflexivity).
  split; [exact H|]. split; [exact U|].
  destruct (unknown_category_policy (with_categorical Region "Essos" jon)
              Region small_schema H U) as (aligned & A & _ & W & _).
  assert (E : aligned =
              combine small_schema
                [PInt 0; PInt 0; PInt 0; PInt 5; PInt 1; PInt 1; PInt 0]).
  { assert (A' : align (encode (with_categorical Region "Essos" jon))
                   small_schema =
                 inr (combine small_schema
                        [PInt 0; PInt 0; PInt 0; PInt 5; PInt 1; PInt 1;
                         PInt 0])) by (vm_compute; reflexivity).
    rewrite A in A'. injection A' as A'. exact A'. }
  rewrite <- E. split; [exact A | exact W].
Defined.

(** X3 -- When alignment raises.  For every input record and every schema
    with distinct column names, the alignment step raises exactly when
    some categorical field of the record is the text [nan]. *)
Theorem align_raises_iff (character : CharacterInput)
  (schema : list string) :
  NoDup schema ->
  ((exists e, align (encode character) schema = inl e) <->
   has_literal_nan character = true).
Proof.
  intros ND. split.
  - intros (e & E). destruct (has_literal_nan character) eqn:H;
      [reflexivity|].
    rewrite align_unique in E by (apply encode_unique, H). discriminate.
  - intros H. eexists. unfold align. apply reindex_duplicate.
    + apply encode_literal_nan, H.
    + intros E. apply (encode_literal_nan character H).
      rewrite E. exact ND.
Qed.

Lemma align_raises_iff_witness :
  NoDup small_schema /\
  ((exists e, align (encode jon_nan) small_schema = inl e) <->
   has_literal_nan jon_nan = true).
Proof.
  assert (ND : NoDup small_schema)
    by (apply is_unique_spec; vm_compute; reflexivity).
  split; [exact ND | exact (align_raises_iff jon_nan small_schema ND)].
Defined.

End Policies.

(* ====================================================================== *)
(** * Every outcome of the handler *)
(* ====================================================================== *)

Section Outcomes.


Lemma serving_ready (m : Model) (schema : list string) :
  ready (serving m schema).
Proof. split; discriminate. Qed.




(** X5 -- What the model is asked.  The handler's outcome depends on the
    model only through what its [predict] does on frames whose columns
    are exactly the schema, in schema order: two models that agree on
    those frames give the same outcome for every request. *)
Theorem model_sees_schema_frames (m1 m2 : Model) (schema : list string)
  (character : CharacterInput) :
  (forall df, columns df = schema ->
              model_predict m1 df = model_predict m2 df) ->
  predict (serving m1 schema) character =
  predict (serving m2 schema) character.
Proof.
  intros Agree. rewrite !predict_serving.
  destruct (align (encode character) schema) as [e|df_aligned] eqn:A;
    [reflexivity|].
  rewrite (Agree df_aligned (reindex_columns _ _ _ _ A)). reflexivity.
Qed.

End Outcomes.

(* ====================================================================== *)
(** * Aligning an aligned frame *)
(* ====================================================================== *)

Section Composition.

Lemma lookup_labelled (cell : string -> value) (col : string)
  (labels : list string) :
  lookup col (map (fun c => (c, cell c)) labels) =
  if mem col labels then Some (cell col) else None.
Proof.
  induction labels as [|c labels IH]; simpl; [reflexivity|].
  destruct (String.eqb_spec col c) as [->|N]; simpl; [reflexivity | exact IH].
Qed.

(** A frame that [align] returns against a schema with distinct names has
    distinct labels itself, and so had the frame it was made from. *)
Lemma align_source_unique (features aligned : DataFrame)
  (schema : list string) :
  NoDup schema -> align features schema = inr aligned ->
  NoDup (columns features).
Proof.
  unfold align, reindex, take_labels. intros ND.
  destruct (list_eqb (columns features) schema) eqn:E.
  - intros _. apply list_eqb_spec in E. rewrite E. exact ND.
  - destruct (is_unique (columns features)) eqn:U; simpl; [|discriminate].
    intros _. apply is_unique_spec, U.
Qed.

(** X6 -- Aligning an aligned frame.  For every frame and every first
    schema with distinct names against which [align] returns, aligning the
    result against a second schema returns, under each name of the second
    schema, the frame's own cell when the first schema has the name and 0
    when it has not; so when every name of the second schema is in the
    first, aligning twice is aligning once against the second. *)
Theorem align_twice (features aligned : DataFrame)
  (first second : list string) :
  NoDup first -> align features first = inr aligned ->
  align aligned second =
    inr (map (fun col =>
                (col, if mem col first then get col features (PInt 0)
                      else PInt 0)) second) /\
  (incl second first -> align aligned second = align features second).
Proof.
  intros ND A.
  pose proof (align_source_unique _ _ _ ND A) as U.
  rewrite (align_unique features first U) in A. injection A as <-.
  assert (C : columns (map (fun column =>
                              (column, get column features (PInt 0))) first)
              = first).
  { unfold columns. rewrite map_map. simpl. apply map_id. }
  assert (T : align (map (fun column =>
                            (column, get column features (PInt 0))) first)
                second =
              inr (map (fun col =>
                          (col, if mem col first
                                then get col features (PInt 0)
                                else PInt 0)) second)).
  { rewrite align_unique by (rewrite C; exact ND).
    apply f_equal. apply map_ext. intros col. apply f_equal.
    unfold get at 1. rewrite lookup_labelled.
    destruct (mem col first); reflexivity. }
  split; [exact T|].
  intros Inc. rewrite T, (align_unique features second U).
  apply f_equal. apply map_ext_in. intros col I. apply f_equal.
  assert (M : mem col first = true) by (apply mem_spec, Inc, I).
  rewrite M. reflexivity.
Qed.

End Composition.

(* ====================================================================== *)
(** * Ratings outside their domain *)
(* ====================================================================== *)

Section Ratings.

Lemma dict_keys_unique (character : CharacterInput) :
  NoDup (columns (bools_to_int (dict_of character))).
Proof. rewrite dict_columns. exact field_names_unique. Qed.

Lemma dict_keys_independent (character : CharacterInput) :
  independent (columns (bools_to_int (dict_of character))) = true.
Proof. rewrite dict_columns. exact field_names_independent. Qed.

(** A column of the frame that is encoded is not kept under its own
    name. *)
Lemma encoded_column_absent (character : CharacterInput) (k : string)
  (v : value) :
  In (k, v) (bools_to_int (dict_of character)) -> classify v <> Numeric ->
  ~ In k (columns (encode character)).
Proof.
  intros I N L. unfold encode, DataFrame_of_record in L.
  apply in_columns in L. destruct L as (w & L).
  apply get_dummies_inv in L. destruct L as [[L C]|(c' & Ic' & _ & L)].
  - pose proof (In_lookup k v _ (dict_keys_unique character) I) as E1.
    pose proof (In_lookup k w _ (dict_keys_unique character) L) as E2.
    rewrite E1 in E2. injection E2 as <-. contradiction.
  - apply (kept_not_dummy _ (dict_keys_independent character) (k, v) c' I Ic').
    simpl. apply in_columns. exists w. exact L.
Qed.

Lemma classify_rating (z : Z) :
  classify (PInt z) =
  if numeric_rating z then Numeric else ObjectLevel (str_int z).
Proof. reflexivity. Qed.

(** X7 -- Ratings are not validated.  For every input record, every schema
    with distinct names against which alignment returns and every position
    where the schema names a rating: the aligned vector holds the rating
    itself there whenever it fits a 64-bit integer column, in its domain
    1 to 5 or not; a rating that fits none is encoded as a category and
    the position holds 0. *)
Theorem rating_scored (character : CharacterInput) (r : rating)
  (schema : list string) (aligned : DataFrame) (i : nat) :
  NoDup schema ->
  align (encode character) schema = inr aligned ->
  nth_error schema i = Some (rating_name r) ->
  nth_error aligned i =
  Some (rating_name r,
        if numeric_rating (rating_value r character)
        then PInt (rating_value r character) else PInt 0).
Proof.
  intros ND A I.
  pose proof (align_source_unique _ _ _ ND A) as U.
  rewrite (align_unique _ schema U) in A. injection A as <-.
  rewrite nth_error_map, I. simpl. do 2 f_equal.
  pose proof (dict_rating character r) as D.
  destruct (numeric_rating (rating_value r character)) eqn:F.
  - apply get_present; [exact U|].
    unfold encode, DataFrame_of_record.
    apply get_dummies_numeric; [exact D|].
    rewrite classify_rating, F. reflexivity.
  - apply get_absent.
    apply (encoded_column_absent character _ _ D).
    rewrite classify_rating, F. discriminate.
Qed.

End Ratings.

(* ====================================================================== *)
(** * A trait that is null *)
(* ====================================================================== *)

Section FillColumn.

Variables (a b : DataFrame) (k : string) (fill : value).
Variable target : list string.

Hypothesis target_unique : NoDup target.
Hypothesis not_in_frame : ~ In k (columns (a ++ b)).

Lemma get_insert_fill (c : string) :
  get c (a ++ (k, fill) :: b) fill = get c (a ++ b) fill.
Proof.
  destruct (String.eqb_spec c k) as [->|N]; [|apply get_insert, N].
  rewrite (get_absent k fill (a ++ b) not_in_frame).
  unfold get. rewrite lookup_app.
  assert (L : lookup k a = None).
  { apply lookup_None. intros I. apply not_in_frame.
    rewrite columns_app. apply in_or_app; left; exact I. }
  rewrite L. simpl. rewrite String.eqb_refl. reflexivity.
Qed.

(** A column that holds the fill value, under a label the rest of the
    frame does not use, does not change what [reindex] returns against a
    target with distinct names. *)
Lemma reindex_fill_column :
  reindex (a ++ (k, fill) :: b) target fill = take_labels (a ++ b) target fill.
Proof.
  assert (G : map (fun c => (c, get c (a ++ (k, fill) :: b) fill)) target =
              map (fun c => (c, get c (a ++ b) fill)) target).
  { apply map_ext. intros c. rewrite get_insert_fill. reflexivity. }
  unfold reindex, take_labels.
  rewrite <- (is_unique_insert a b k fill not_in_frame).
  destruct (list_eqb (columns (a ++ (k, fill) :: b)) target) eqn:E.
  - apply list_eqb_spec in E.
    assert (U : NoDup (columns (a ++ (k, fill) :: b)))
      by (rewrite E; exact target_unique).
    rewrite (proj2 (is_unique_spec _) U). simpl.
    rewrite <- G, <- E, (get_own_columns _ fill U). reflexivity.
  - destruct (is_unique (columns (a ++ (k, fill) :: b))); simpl;
      [rewrite G|]; reflexivity.
Qed.

End FillColumn.

Section NullTrait.

Lemma dict_around_trait (t : optional_trait) (o : option bool)
  (character : CharacterInput) :
  bools_to_int (dict_of (with_optional_trait t o character)) =
  entries_before (optional_trait_index t) character ++
  (optional_trait_name t, bool_to_int (optional PBool o)) ::
  entries_after (optional_trait_index t) character.
Proof. destruct t, character; reflexivity. Qed.

Lemma trait_rest_foreign (t : optional_trait) (character : CharacterInput) :
  foreign (optional_trait_name t)
    (columns (entries_before (optional_trait_index t) character ++
              entries_after (optional_trait_index t) character)) = true /\
  foreign (optional_trait_name t ++ "_nan")%string
    (columns (entries_before (optional_trait_index t) character ++
              entries_after (optional_trait_index t) character)) = true.
Proof. destruct t, character; split; vm_compute; reflexivity. Qed.

Lemma get_dummies_kept (pre post : DataFrame) (k : string) (v : value) :
  classify v = Numeric ->
  get_dummies (pre ++ (k, v) :: post) =
  filter is_numeric pre ++
  (k, v) :: (filter is_numeric post ++ flat_map dummies (pre ++ post)) /\
  get_dummies (pre ++ post) =
  filter is_numeric pre ++
  (filter is_numeric post ++ flat_map dummies (pre ++ post)).
Proof.
  intros C. unfold get_dummies.
  rewrite !filter_app, !flat_map_app. simpl.
  unfold is_numeric at 2, dummies at 2. simpl. rewrite C. simpl.
  rewrite <- !app_assoc. split; reflexivity.
Qed.

Lemma get_dummies_null_cell (pre post : DataFrame) (k : string) :
  get_dummies (pre ++ (k, PNone) :: post) =
  (filter is_numeric (pre ++ post) ++ flat_map dummies pre) ++
  ((k ++ "_nan")%string, PInt 1) :: flat_map dummies post.
Proof.
  unfold get_dummies. rewrite !filter_app, flat_map_app. simpl.
  rewrite <- !app_assoc. reflexivity.
Qed.

(** X8 -- A null trait is scored as false.  For every input record, every
    optional trait and every schema with distinct names that has no column
    [<trait>_nan], the request with the trait null and the request with
    the trait false are aligned alike, and the handler answers them alike
    on the same model. *)
Theorem null_trait_scored_false (character : CharacterInput)
  (t : optional_trait) (schema : list string) :
  NoDup schema ->
  ~ In (optional_trait_name t ++ "_nan")%string schema ->
  align (encode (with_optional_trait t None character)) schema =
    align (encode (with_optional_trait t (Some false) character)) schema /\
  forall m,
    predict (serving m schema) (with_optional_trait t None character) =
    predict (serving m schema) (with_optional_trait t (Some false) character).
Proof.
  intros ND S.
  destruct (trait_rest_foreign t character) as [F1 F2].
  apply foreign_spec in F1, F2.
  assert (A : align (encode (with_optional_trait t None character)) schema =
              align (encode (with_optional_trait t (Some false) character))
                schema).
  { unfold align, encode, DataFrame_of_record.
    rewrite !dict_around_trait. simpl bool_to_int.
    rewrite get_dummies_null_cell.
    destruct (get_dummies_kept
                (entries_before (optional_trait_index t) character)
                (entries_after (optional_trait_index t) character)
                (optional_trait_name t) (PInt 0) eq_refl) as [K R].
    rewrite K.
    rewrite reindex_foreign;
      [| exact S | rewrite <- get_dummies_without; exact F2].
    rewrite reindex_fill_column;
      [| exact ND | rewrite <- R; exact F1].
    rewrite <- get_dummies_without, <- R. reflexivity. }
  split; [exact A|].
  intros m. rewrite !predict_serving, A. reflexivity.
Qed.

End NullTrait.

(* ====================================================================== *)
(** * The width of the encoded frame *)
(* ====================================================================== *)

Section Width.








End Width.

(* ====================================================================== *)
(** * Start-up, then requests *)
(* ====================================================================== *)

Section Startup.

Lemma predict_not_ready_from (g : globals) (character : CharacterInput) :
  model g = None \/ feature_columns g = None ->
  predict g character = (inl not_ready_error, []).
Proof.
  intros H. rewrite predict_guard.
  destruct H as [H|H]; rewrite H; [reflexivity|].
  destruct (model g); reflexivity.
Qed.

Lemma startup_loaded (fs : artifacts) (m : Model) (schema : list string) :
  files_exist fs = true ->
  joblib_load fs = inr (Some m) -> json_load_columns fs = inr (Some schema) ->
  startup fs = serving m schema.
Proof.
  unfold files_exist, startup. intros E J C.
  apply andb_true_iff in E. destruct E as [E1 E2].
  rewrite load_artifacts_globals, E1, E2, J, C. reflexivity.
Qed.

(** X10 -- Start-up, then requests.  After [load_artifacts] has run on the
    initial globals, the service is ready exactly when both files exist,
    the model load returned a model and the features read returned a
    column list; in that case every request is handled with that model
    and that schema, and in every other case (a missing file, a load that
    raises, a loaded [None]) every request is rejected with the 503
    error. *)
Theorem startup_then_predict (fs : artifacts) :
  (ready (startup fs) <->
   files_exist fs = true /\
   (exists m, joblib_load fs = inr (Some m)) /\
   (exists schema, json_load_columns fs = inr (Some schema))) /\
  forall character,
    predict (startup fs) character =
    if files_exist fs then
      match joblib_load fs, json_load_columns fs with
      | inr (Some m), inr (Some schema) =>
          predict (serving m schema) character
      | _, _ => (inl not_ready_error, [])
      end
    else (inl not_ready_error, []).
Proof.
  split.
  - split.
    + intros R. apply startup_ready in R.
      destruct R as (E1 & E2 & J & C).
      unfold files_exist. rewrite E1, E2. auto.
    + intros (E & (m & J) & (schema & C)).
      rewrite (startup_loaded fs m schema E J C). apply serving_ready.
  - intros character. rewrite predict_guard.
    unfold startup, files_exist. rewrite load_artifacts_globals.
    destruct (model_path_exists fs), (features_path_exists fs); simpl;
      try reflexivity.
    destruct (joblib_load fs) as [e|[m|]]; simpl;
      try reflexivity;
      destruct (json_load_columns fs) as [e'|[schema|]]; reflexivity.
Qed.

(** X11 -- The success line is not readiness.  [load_artifacts] prints
    "Model and metadata loaded successfully." exactly when both files
    exist and neither load raised; a ready service has printed it, but
    when neither load raised and one of them returned [None] the line is
    printed and every request is still rejected with the 503 error. *)
Theorem success_line_printed (fs : artifacts) :
  (forall g,
     snd (load_artifacts fs g) = [success_line] <->
     files_exist fs = true /\
     (exists m, joblib_load fs = inr m) /\
     (exists cols, json_load_columns fs = inr cols)) /\
  (ready (startup fs) -> snd (load_artifacts fs initial) = [success_line]) /\
  (files_exist fs = true ->
   (joblib_load fs = inr None /\
    exists cols, json_load_columns fs = inr cols) \/
   ((exists m, joblib_load fs = inr m) /\
    json_load_columns fs = inr None) ->
   snd (load_artifacts fs initial) = [success_line] /\
   forall character,
     predict (startup fs) character = (inl not_ready_error, [])).
Proof.
  assert (P : forall g,
            snd (load_artifacts fs g) = [success_line] <->
            files_exist fs = true /\
            (exists m, joblib_load fs = inr m) /\
            (exists cols, json_load_columns fs = inr cols)).
  { intros g. unfold load_artifacts, load_artifacts_run, files_exist.
    destruct (model_path_exists fs), (features_path_exists fs); simpl;
      try (split; [discriminate | intros [H _]; discriminate]).
    destruct (joblib_load fs) as [e|m]; simpl.
    - split; [destruct (is_exception e); discriminate
             | intros (_ & (m & H) & _); discriminate].
    - destruct (json_load_columns fs) as [e|cols]; simpl.
      + split; [destruct (is_exception e); discriminate
               | intros (_ & _ & (cols & H)); discriminate].
      + split; [intros _; eauto | reflexivity]. }
  split; [exact P|]. split.
  - intros R. apply P. apply startup_ready in R.
    destruct R as (E1 & E2 & (m & J) & (cols & C)).
    unfold files_exist. rewrite E1, E2. eauto.
  - intros E N. split.
    + apply P. split; [exact E|].
      destruct N as [[J C]|[J C]]; split; eauto.
    + intros character. apply predict_not_ready_from.
      unfold files_exist in E. apply andb_true_iff in E.
      destruct E as [E1 E2].
      unfold startup. rewrite load_artifacts_globals, E1, E2. simpl.
      destruct N as [[J (cols & C)]|[(m & J) C]]; rewrite J, C; simpl.
      * left; reflexivity.
      * right; reflexivity.
Qed.

(** X17 -- When start-up itself fails.  [load_artifacts] raises exactly
    when both files exist and a load raises an exception that does not
    derive from [Exception] (the model load, or the features read after
    the model load returned), and the exception is that one; nothing is
    printed then and [feature_columns] is left as it was.  A missing file
    and an exception that derives from [Exception] never make the call
    raise. *)
Theorem load_artifacts_ends (fs : artifacts) (g : globals) :
  (forall e,
     fst (load_artifacts_run fs g) = inl e <->
     files_exist fs = true /\ is_exception e = false /\
     (joblib_load fs = inl e \/
      (exists m, joblib_load fs = inr m) /\ json_load_columns fs = inl e)) /\
  (forall e,
     fst (load_artifacts_run fs g) = inl e ->
     snd (load_artifacts fs g) = [] /\
     feature_columns (fst (load_artifacts fs g)) = feature_columns g).
Proof.
  unfold load_artifacts, load_artifacts_run, files_exist.
  destruct (model_path_exists fs), (features_path_exists fs); simpl;
    try (split; [intros e; split; [discriminate | intros [H _]; discriminate]
                | intros e H; discriminate]).
  destruct (joblib_load fs) as [e|m]; simpl.
  - destruct (is_exception e) eqn:X; simpl.
    + split; [|intros e' H; discriminate].
      intros e'. split; [discriminate|].
      intros (_ & X' & [[= <-]|[[m H] _]]); [congruence | discriminate].
    + split; [|intros e' _; split; reflexivity].
      intros e'. split.
      * intros [= <-]. split; [reflexivity|]. split; [exact X | left; reflexivity].
      * intros (_ & _ & [[= <-]|[[m H] _]]); [reflexivity | discriminate].
  - destruct (json_load_columns fs) as [e|cols]; simpl.
    + destruct (is_exception e) eqn:X; simpl.
      * split; [|intros e' H; discriminate].
        intros e'. split; [discriminate|].
        intros (_ & X' & [H|[_ [= <-]]]); [discriminate | congruence].
      * split; [|intros e' _; split; reflexivity].
        intros e'. split.
        -- intros [= <-]. split; [reflexivity|]. split; [exact X|].
           right. split; [eauto | reflexivity].
        -- intros (_ & _ & [H|[_ [= <-]]]); [discriminate | reflexivity].
    + split; [|intros e' H; discriminate].
      intros e'. split; [discriminate|].
      intros (_ & _ & [H|[_ H]]); discriminate.
Qed.

End Startup.

(* ====================================================================== *)
(** * A request, end to end *)
(* ====================================================================== *)

Section EndToEnd.

(** X12 -- A request, end to end.  For every input record none of whose
    categorical fields is the text [nan], and every model and schema, the
    handler makes its four calls and asks the model once, about the vector
    that holds under each schema column the record's encoded cell, or 0
    where the encoding has no such column; the response is the first label
    the model returns for it; the 500 error when the model raises an
    exception that derives from [Exception] or returns no label; and the
    model's own exception, unwrapped, when it raises one that does not
    derive from [Exception]. *)
Theorem predict_end_to_end (character : CharacterInput) (m : Model)
  (schema : list string) :
  has_literal_nan character = false ->
  predict (serving m schema) character =
  (match model_predict m
           (map (fun column =>
                   (column, get column (encode character) (PInt 0)))
              schema) with
   | inl e => inl (if is_exception e then prediction_failed e else e)
   | inr [] =>
       inl (prediction_failed
              (IndexError "index 0 is out of bounds for axis 0 with size 0"))
   | inr (label :: _) => inr {| house_affiliation := label |}
   end,
   inference_trace).
Proof.
  intros H. rewrite predict_serving.
  rewrite (align_unique _ schema (encode_unique character H)).
  reflexivity.
Qed.

End EndToEnd.

(* ====================================================================== *)
(** * The pipeline script *)
(* ====================================================================== *)

Section PipelineScript.

Import Pipeline.

(** X13 -- The pipeline script.  When connecting to the workspace raises
    an exception that derives from [Exception], [main] prints its two
    lines, submits nothing and returns normally; [main] never submits more
    than one job, and submits one exactly when connecting and building the
    job both returned; [main] raises exactly when connecting raises an
    exception that does not derive from [Exception], or building or
    submitting the job raises, and then the exception is that one; and the
    "Pipeline submitted" line is printed exactly when the submission
    returned. *)
Theorem main_effects (w : workspace) :
  (forall e, connect w = inl e -> is_exception e = true ->
     main w =
     (inr tt,
      [Print ("Could not connect to workspace: " ++ str_exn e)%string;
       Print "Please ensure you have a config.json file or update the script with your workspace details."])) /\
  (submissions (snd (main w)) <= 1)%nat /\
  (submissions (snd (main w)) = 1%nat <->
   (exists u, connect w = inr u) /\ (exists u, build_job w = inr u)) /\
  (forall e, fst (main w) = inl e <->
     (connect w = inl e /\ is_exception e = false) \/
     ((exists u, connect w = inr u) /\
      (build_job w = inl e \/
       (exists u, build_job w = inr u) /\ create_or_update w = inl e))) /\
  (forall url,
     In (Print ("Pipeline submitted. Job URL: " ++ url)%string)
        (snd (main w)) <->
     (exists u, connect w = inr u) /\ (exists u, build_job w = inr u) /\
     create_or_update w = inr url).
Proof.
  unfold main, submissions.
  destruct (connect w) as [e|u]; simpl.
  - destruct (is_exception e) eqn:X; simpl.
    + split; [intros e' [= <-] _; reflexivity|]. split; [lia|].
      split; [split; [discriminate | intros [[u H] _]; discriminate]|].
      split.
      * intros e'. split; [discriminate|].
        intros [[[= <-] X']|[[u H] _]]; [congruence | discriminate].
      * intros url. split; [|intros [[u H] _]; discriminate].
        intros [H|[H|[]]]; discriminate.
    + split; [intros e' [= <-] X'; congruence|]. split; [lia|].
      split; [split; [discriminate | intros [[u H] _]; discriminate]|].
      split.
      * intros e'. split.
        -- intros [= <-]. left. split; [reflexivity | exact X].
        -- intros [[[= <-] _]|[[u H] _]]; [reflexivity | discriminate].
      * intros url. split; [intros [] | intros [[u H] _]; discriminate].
  - split; [intros e H; discriminate|].
    destruct (build_job w) as [e|u']; simpl.
    + split; [lia|].
      split; [split; [discriminate | intros [_ [u'' H]]; discriminate]|].
      split.
      * intros e'. split.
        -- intros [= <-]. right. split; [eauto | left; reflexivity].
        -- intros [[H _]|[_ [[= <-]|[[u'' H] _]]]];
             [discriminate | reflexivity | discriminate].
      * intros url. split; [tauto | intros (_ & [u'' H] & _); discriminate].
    + destruct (create_or_update w) as [e|studio_url]; simpl.
      * split; [lia|]. split; [split; eauto|]. split.
        -- intros e'. split.
           ++ intros [= <-]. right. split; [eauto | right; split; eauto].
           ++ intros [[H _]|[_ [H|[_ [= <-]]]]];
                [discriminate | discriminate | reflexivity].
        -- intros url. split; [|intros (_ & _ & H); discriminate].
           intros [H|[]]; discriminate.
      * split; [lia|]. split; [split; eauto|]. split.
        -- intros e'. split; [discriminate|].
           intros [[H _]|[_ [H|[_ H]]]]; discriminate.
        -- intros url. split.
           ++ intros [H|[H|[]]]; [discriminate|].
              injection H as H. subst.
              repeat split; eauto.
           ++ intros (_ & _ & [= <-]). right; left; reflexivity.
Qed.

End PipelineScript.

(* ====================================================================== *)
(** * Indicator names and the one-hot group *)
(* ====================================================================== *)

Section OneHot.

Lemma categorical_name_field (f : categorical) :
  In (categorical_name f) field_names.
Proof. destruct f; simpl; tauto. Qed.

Lemma categorical_name_inj (f g : categorical) :
  categorical_name f = categorical_name g -> f = g.
Proof. destruct f, g; try reflexivity; discriminate. Qed.

(** X14 -- Indicator names are unambiguous.  An indicator name
    [<field>_<value>] determines its field and its value: two categorical
    fields with values that give the same name are the same field with the
    same value; and no indicator name, whatever the value, is the name of
    a field of the request. *)
Theorem indicator_names_unambiguous (f g : categorical) (v w : string) :
  ((categorical_name f ++ "_" ++ v)%string =
   (categorical_name g ++ "_" ++ w)%string -> f = g /\ v = w) /\
  ~ In (categorical_name f ++ "_" ++ v)%string field_names.
Proof.
  pose proof (categorical_name_field f) as Kf.
  split.
  - intros E.
    assert (F : f = g).
    { destruct (String.eqb_spec (categorical_name f) (categorical_name g))
        as [N|N]; [apply categorical_name_inj, N|].
      exfalso.
      pose proof (prefix_underscore (categorical_name f) v) as P.
      pose proof (prefix_underscore (categorical_name g) w) as Q.
      rewrite E in P.
      pose proof (categorical_name_field g) as Kg.
      destruct (prefix_common _ _ _ P Q) as [R|R].
      - rewrite (independent_spec _ _ _ field_names_independent Kf Kg N)
          in R. discriminate.
      - rewrite (independent_spec _ _ _ field_names_independent Kg Kf)
          in R; [discriminate | congruence]. }
    split; [exact F|]. subst g.
    apply append_inj in E. injection E as E. exact E.
  - intros I.
    pose proof (prefix_underscore (categorical_name f) v) as P.
    set (k := (categorical_name f ++ "_" ++ v)%string) in *.
    destruct (String.eqb_spec (categorical_name f) k) as [E|N].
    + rewrite <- E, prefix_self_underscore in P. discriminate.
    + assert (Q : String.prefix (categorical_name f ++ "_")%string
                    (k ++ "_")%string = true)
        by (apply prefix_trans with (b := k);
            [exact P | apply prefix_append]).
      rewrite (independent_spec _ _ _ field_names_independent Kf I N) in Q.
      discriminate.
Qed.

(** X15 -- The one-hot group.  For every input record none of whose
    categorical fields is the text [nan], every schema and every
    categorical field, the aligned vector holds, at each schema position
    of the field's group, 1 where the column is the indicator of the
    record's value and 0 elsewhere: one position set when the value is in
    the schema, none when it is not. *)
Theorem group_is_one_hot (character : CharacterInput) (f : categorical)
  (schema : list string) :
  has_literal_nan character = false ->
  exists aligned,
    align (encode character) schema = inr aligned /\
    forall i column,
      nth_error schema i = Some column -> in_group f column = true ->
      nth_error aligned i =
      Some (column,
            if String.eqb column
                 (categorical_name f ++ "_" ++
                  categorical_value f character)%string
            then PInt 1 else PInt 0).
Proof.
  intros H.
  pose proof (encode_unique character H) as U.
  exists (map (fun column => (column, get column (encode character) (PInt 0)))
            schema).
  split; [apply align_unique, U|].
  intros i column I G. rewrite nth_error_map, I.
  cbn [option_map]. apply f_equal. apply f_equal.
  destruct (String.eqb_spec column
              (categorical_name f ++ "_" ++
               categorical_value f character)%string) as [->|N].
  - apply get_present; [exact U|].
    exact (proj1 (encode_categorical character f)).
  - exact (proj1 (proj2 (encode_cells character f column H) G N)).
Qed.

End OneHot.

(* ====================================================================== *)
(** * The further properties at concrete requests *)
(* ====================================================================== *)

Section Instances.

Lemma model_sees_schema_frames_witness :
  (forall df, columns df = small_schema ->
              model_predict stark_model df =
              model_predict (strict_model small_schema) df) /\
  predict (serving stark_model small_schema) jon =
  predict (serving (strict_model small_schema) small_schema) jon.
Proof.
  assert (Agree : forall df, columns df = small_schema ->
                    model_predict stark_model df =
                    model_predict (strict_model small_schema) df).
  { intros df E. simpl. rewrite E, list_eqb_refl. reflexivity. }
  split; [exact Agree|].
  exact (model_sees_schema_frames stark_model (strict_model small_schema)
           small_schema jon Agree).
Defined.

Lemma align_twice_witness :
  let aligned :=
    combine small_schema
      [PInt 1; PInt 0; PInt 0; PInt 5; PInt 1; PInt 1; PInt 0] in
  NoDup small_schema /\
  align (encode jon) small_schema = inr aligned /\
  align aligned ["honour_1to5"; "age"; "region_North"] =
    inr [("honour_1to5", PInt 5); ("age", PInt 0); ("region_North", PInt 1)] /\
  align aligned ["honour_1to5"; "region_North"] =
    align (encode jon) ["honour_1to5"; "region_North"].
Proof.
  intros aligned.
  assert (ND : NoDup small_schema)
    by (apply is_unique_spec; vm_compute; reflexivity).
  assert (A : align (encode jon) small_schema = inr aligned)
    by (vm_compute; reflexivity).
  split; [exact ND|]. split; [exact A|]. split.
  - exact (proj1 (align_twice (encode jon) aligned small_schema
                    ["honour_1to5"; "age"; "region_North"] ND A)).
  - apply (proj2 (align_twice (encode jon) aligned small_schema
                    ["honour_1to5"; "region_North"] ND A)).
    apply incl_mem. reflexivity.
Defined.

Lemma rating_scored_witness :
  NoDup small_schema /\
  (align (encode jon_99) small_schema =
     inr (combine small_schema
            [PInt 1; PInt 0; PInt 0; PInt 99; PInt 1; PInt 1; PInt 0]) /\
   nth_error
     (combine small_schema
        [PInt 1; PInt 0; PInt 0; PInt 99; PInt 1; PInt 1; PInt 0]) 3 =
     Some ("honour_1to5", PInt 99)) /\
  (align (encode jon_huge) small_schema =
     inr (combine small_schema
            [PInt 1; PInt 0; PInt 0; PInt 0; PInt 1; PInt 1; PInt 0]) /\
   nth_error
     (combine small_schema
        [PInt 1; PInt 0; PInt 0; PInt 0; PInt 1; PInt 1; PInt 0]) 3 =
     Some ("honour_1to5", PInt 0)).
Proof.
  assert (ND : NoDup small_schema)
    by (apply is_unique_spec; vm_compute; reflexivity).
  assert (A : align (encode jon_99) small_schema =
              inr (combine small_schema
                     [PInt 1; PInt 0; PInt 0; PInt 99; PInt 1; PInt 1;
                      PInt 0])) by (vm_compute; reflexivity).
  assert (B : align (encode jon_huge) small_schema =
              inr (combine small_schema
                     [PInt 1; PInt 0; PInt 0; PInt 0; PInt 1; PInt 1;
                      PInt 0])) by (vm_compute; reflexivity).
  split; [exact ND|]. split; (split; [assumption|]).
  - exact (rating_scored jon_99 Honour small_schema _ 3 ND A eq_refl).
  - exact (rating_scored jon_huge Honour small_schema _ 3 ND B eq_refl).
Defined.

Lemma null_trait_scored_false_witness :
  NoDup trait_schema /\
  ~ In "trait_strategic_nan" trait_schema /\
  align (encode (with_optional_trait OptStrategic None jon)) trait_schema =
    inr [("trait_strategic", PInt 0); ("honour_1to5", PInt 5);
         ("region_North", PInt 1)] /\
  align (encode (with_optional_trait OptStrategic (Some false) jon))
        trait_schema =
    inr [("trait_strategic", PInt 0); ("honour_1to5", PInt 5);
         ("region_North", PInt 1)].
Proof.
  assert (ND : NoDup trait_schema)
    by (apply is_unique_spec; vm_compute; reflexivity).
  assert (S : ~ In "trait_strategic_nan" trait_schema)
    by (apply mem_false; reflexivity).
  split; [exact ND|]. split; [exact S|].
  assert (B : align (encode (with_optional_trait OptStrategic (Some false)
                               jon)) trait_schema =
              inr [("trait_strategic", PInt 0); ("honour_1to5", PInt 5);
                   ("region_North", PInt 1)]) by (vm_compute; reflexivity).
  split; [|exact B].
  rewrite <- B.
  exact (proj1 (null_trait_scored_false jon OptStrategic trait_schema ND S)).
Defined.

Lemma predict_end_to_end_witness :
  has_literal_nan jon = false /\
  predict (serving stark_model small_schema) jon =
    (inr {| house_affiliation := "Stark" |}, inference_trace).
Proof.
  split; [reflexivity|].
  exact (predict_end_to_end jon stark_model small_schema eq_refl).
Defined.

Lemma group_is_one_hot_witness :
  has_literal_nan jon = false /\
  exists aligned,
    align (encode jon) small_schema = inr aligned /\
    nth_error aligned 0 = Some ("region_North", PInt 1) /\
    nth_error aligned 1 = Some ("region_South", PInt 0) /\
    nth_error aligned 2 = Some ("region_nan", PInt 0).
Proof.
  split; [reflexivity|].
  destruct (group_is_one_hot jon Region small_schema eq_refl)
    as (aligned & A & G).
  exists aligned. split; [exact A|].
  split; [exact (G 0%nat "region_North" eq_refl eq_refl)|].
  split; [exact (G 1%nat "region_South" eq_refl eq_refl)|].
  exact (G 2%nat "region_nan" eq_refl eq_refl).
Defined.

End Instances.
